(** * smartMeta: the metadata pipeline of [src/lib/api.ts]

    A shallow embedding of the text normaliser ([extractKeywords],
    [cleanDescription], [formatDescription]), the retry policy
    ([retryWithBackoff]) and the two entry points ([generateLLMMetadata],
    [analyzeContent]), followed by the properties proved about them.

    Strings.  A JavaScript string is a sequence of UTF-16 code units.  This
    development covers the strings whose code units are below 256 (ASCII and
    Latin-1): a string is a [list ascii], the character [c] standing for
    the code unit [N_of_ascii c].  On that range the character classes,
    [toLowerCase], [trim] and the [i] flag below are the ones of ECMAScript.

    Effects.  [async] code is written in a state-and-exception monad over a
    [World] that holds the clock, the number of remote requests made and the
    trace of observable events (requests, timer sleeps, console output).  An
    [await] is a bind; a rejected promise is a thrown [exn].

    Platform.  [JSON.parse] and the remote inference client are not code of
    the repository: they are parameters ([JSON_parse], [remote]) and every
    theorem holds for all of them. *)

From Stdlib Require Import List Ascii String Bool Arith NArith ZArith Lia.
From Stdlib Require Import Floats.PrimFloat.
Import ListNotations.

Set Warnings "-register-all,-inexact-float".

Set Implicit Arguments.

(* ================================================================== *)
(** * Strings *)

Module JsString.

Definition jsstring : Type := list ascii.

(** A string literal of the source. *)
Definition str (s : string) : jsstring := list_ascii_of_string s.

Definition code (c : ascii) : N := N_of_ascii c.

Definition in_range (lo hi : N) (c : ascii) : bool :=
  (N.leb lo (code c) && N.leb (code c) hi)%bool.

(** [\d] *)
Definition is_digit (c : ascii) : bool := in_range 48 57 c.

(** [\w]: [A-Za-z0-9_] *)
Definition is_word (c : ascii) : bool :=
  (in_range 97 122 c || in_range 65 90 c || is_digit c || N.eqb (code c) 95)%bool.

(** [\s], and what [trim] removes: TAB, LF, VT, FF, CR, SPACE and NBSP are the
    WhiteSpace and LineTerminator code units below 256. *)
Definition is_space (c : ascii) : bool :=
  (in_range 9 13 c || N.eqb (code c) 32 || N.eqb (code c) 160)%bool.

(** [String.prototype.toLowerCase], one code unit at a time: A-Z, and the
    Latin-1 capitals U+00C0..U+00DE but for the multiplication sign U+00D7. *)
Definition lower_char (c : ascii) : ascii :=
  if (in_range 65 90 c || (in_range 192 222 c && negb (N.eqb (code c) 215)))%bool
  then ascii_of_N (code c + 32) else c.

Definition toLowerCase (s : jsstring) : jsstring := map lower_char s.

(** Canonicalize of the [i] flag (no [u] flag): the upper-case code unit.
    U+00B5, U+00DF and U+00FF have no single upper-case code unit below 256
    and no other code unit maps to them, so they stand for themselves. *)
Definition canonicalize (c : ascii) : ascii :=
  if (in_range 97 122 c || (in_range 224 254 c && negb (N.eqb (code c) 247)))%bool
  then ascii_of_N (code c - 32) else c.

Fixpoint str_eqb (a b : jsstring) : bool :=
  match a, b with
  | [], [] => true
  | x :: a', y :: b' => (Ascii.eqb x y && str_eqb a' b')%bool
  | _, _ => false
  end.

(** [s.length === 0], the falsy string. *)
Definition is_empty (s : jsstring) : bool :=
  match s with [] => true | _ :: _ => false end.

(** [Boolean(s)] on a string. *)
Definition truthy_str (s : jsstring) : bool := negb (is_empty s).

Fixpoint trimStart (s : jsstring) : jsstring :=
  match s with
  | c :: s' => if is_space c then trimStart s' else s
  | [] => []
  end.

Definition trimEnd (s : jsstring) : jsstring := rev (trimStart (rev s)).

(** [String.prototype.trim] *)
Definition trim (s : jsstring) : jsstring := trimEnd (trimStart s).

(** [Array.prototype.join] on an array of strings. *)
Fixpoint join (sep : jsstring) (l : list jsstring) : jsstring :=
  match l with
  | [] => []
  | [x] => x
  | x :: l' => x ++ sep ++ join sep l'
  end.

(** [arr.slice(0, n)] *)
Definition slice0 (A : Type) (n : nat) (l : list A) : list A := firstn n l.

(** [s.split(sep)] for a separator of one code unit: the pieces between the
    occurrences of [sep]; the empty string gives one empty piece. *)
Fixpoint split_on (sep : ascii) (s : jsstring) : list jsstring :=
  match s with
  | [] => [[]]
  | c :: s' =>
      if Ascii.eqb c sep then [] :: split_on sep s'
      else match split_on sep s' with
           | piece :: rest => (c :: piece) :: rest
           | [] => [[c]]
           end
  end.

(** [arr[0]] where the array holds strings; [split] never returns an empty
    array for a separator that is not empty, so the default is never used. *)
Definition first_piece (l : list jsstring) : jsstring := hd [] l.

End JsString.
Import JsString.

(* ================================================================== *)
(** * Regular expressions

    The fragment of RegExp the source uses: literals (with or without the
    [i] flag), character classes, greedy [*] and [+] over a class, sequence
    and alternation.  [matches r s] lists, in the order the backtracking
    matcher tries them, what is left of [s] after each way [r] matches a
    prefix of it; the first one is the match RegExp reports at that
    position. *)

Module RegExp.

Inductive regex : Type :=
| Eps
| Chr (c : ascii)
| ChrI (c : ascii)
| Class (p : ascii -> bool)
| Star (p : ascii -> bool)
| Plus (p : ascii -> bool)
| Seq (r1 r2 : regex)
| Alt (r1 r2 : regex).

(** A literal word of a pattern compiled with the [i] flag, followed by [k]. *)
Definition lit_i (s : string) (k : regex) : regex :=
  fold_right (fun c r => Seq (ChrI c) r) k (list_ascii_of_string s).

(** Greedy iteration of a class: the longest run first, the empty one last. *)
Fixpoint star_ends (p : ascii -> bool) (s : jsstring) : list jsstring :=
  match s with
  | c :: s' => if p c then star_ends p s' ++ [s] else [s]
  | [] => [[]]
  end.

Definition one (p : ascii -> bool) (s : jsstring) : list jsstring :=
  match s with
  | c :: s' => if p c then [s'] else []
  | [] => []
  end.

Fixpoint matches (r : regex) (s : jsstring) : list jsstring :=
  match r with
  | Eps => [s]
  | Chr c => one (Ascii.eqb c) s
  | ChrI c => one (fun a => Ascii.eqb (canonicalize a) (canonicalize c)) s
  | Class p => one p s
  | Star p => star_ends p s
  | Plus p => flat_map (star_ends p) (one p s)
  | Seq r1 r2 => flat_map (matches r2) (matches r1 s)
  | Alt r1 r2 => matches r1 s ++ matches r2 s
  end.

(** The match at the start of [s], as what follows it. *)
Definition exec (r : regex) (s : jsstring) : option jsstring :=
  hd_error (matches r s).

(** [s.replace(r, rep)] for [r] with the [g] flag and a replacement text
    without [$]: left to right, each match replaced, the search resuming
    after it.  [skip] counts the characters of the current match still to be
    passed over.  An empty match is replaced and the character after it kept
    (none of the patterns below matches the empty string). *)
Fixpoint replace_from (r : regex) (rep : jsstring) (skip : nat) (s : jsstring)
  : jsstring :=
  match s with
  | [] =>
      match skip, exec r [] with
      | O, Some _ => rep
      | _, _ => []
      end
  | c :: s' =>
      match skip with
      | S k => replace_from r rep k s'
      | O =>
          match exec r s with
          | None => c :: replace_from r rep 0 s'
          | Some rest =>
              match List.length s - List.length rest with
              | O => rep ++ c :: replace_from r rep 0 s'
              | S k => rep ++ replace_from r rep k s'
              end
          end
      end
  end.

Definition replace_all (r : regex) (rep : jsstring) (s : jsstring) : jsstring :=
  replace_from r rep 0 s.

Definition push (c : ascii) (pieces : list jsstring) : list jsstring :=
  match pieces with
  | piece :: rest => (c :: piece) :: rest
  | [] => [[c]]
  end.

(** [s.split(r)] without a limit: the pieces between the matches of [r].
    [fresh] says that the current piece is still empty: an empty match
    there is passed over, elsewhere it ends the piece.  No match is tried at
    the end of the string. *)
Fixpoint split_from (r : regex) (skip : nat) (fresh : bool) (s : jsstring)
  : list jsstring :=
  match s with
  | [] => [[]]
  | c :: s' =>
      match skip with
      | S k => split_from r k true s'
      | O =>
          match exec r s with
          | None => push c (split_from r 0 false s')
          | Some rest =>
              match List.length s - List.length rest with
              | S k => [] :: split_from r k true s'
              | O =>
                  if fresh then push c (split_from r 0 false s')
                  else [] :: push c (split_from r 0 false s')
              end
          end
      end
  end.

Definition split_regex (r : regex) (s : jsstring) : list jsstring :=
  match s with
  | [] => match exec r [] with Some _ => [] | None => [[]] end
  | _ :: _ => split_from r 0 true s
  end.

End RegExp.
Import RegExp.

(* ================================================================== *)
(** * Text normaliser (api.ts, lines 13-51) *)

(** [new Set([...])] and [Set.prototype.has] on strings. *)
Definition Set_has (set : list jsstring) (word : jsstring) : bool :=
  existsb (str_eqb word) set.

(** [Array.from(new Set(words))]: a Set keeps the insertion order and
    ignores a value it already holds. *)
Definition Set_add (set : list jsstring) (word : jsstring) : list jsstring :=
  if Set_has set word then set else set ++ [word].

Definition Array_from_Set (words : list jsstring) : list jsstring :=
  fold_left Set_add words [].

Definition commonWords : list jsstring :=
  map str ["and"; "the"; "for"; "in"; "to"; "of"; "a"; "with"; "by"; "on"; "your"]%string.

(** [/[^\w\s]/g] *)
Definition re_not_word_space : regex :=
  Class (fun c => negb (is_word c || is_space c)).

(** [/\s+/] *)
Definition re_spaces : regex := Plus is_space.

Definition extractKeywords (content : jsstring) : jsstring :=
  let words :=
    filter (fun word => (3 <? List.length word)%nat && negb (Set_has commonWords word))
      (split_regex re_spaces
         (replace_all re_not_word_space [] (toLowerCase content))) in
  let uniqueWords := Array_from_Set words in
  join (str ", ") (slice0 5 uniqueWords).

(** [/\d+\.\s+/g] *)
Definition re_numbered : regex :=
  Seq (Plus is_digit) (Seq (Chr ".") (Plus is_space)).

(** [/here are \d+ tips for/gi] *)
Definition re_here_are : regex :=
  lit_i "here are " (Seq (Plus is_digit) (lit_i " tips for" Eps)).

(** [/\s*\n\s*/g] *)
Definition re_line_break : regex :=
  Seq (Star is_space) (Seq (Chr "010") (Star is_space)).

(** [/\s*\.\s*/g] *)
Definition re_period : regex :=
  Seq (Star is_space) (Seq (Chr ".") (Star is_space)).

(** [/\s*,\s*/g] *)
Definition re_comma : regex :=
  Seq (Star is_space) (Seq (Chr ",") (Star is_space)).

Definition cleanDescription (text : jsstring) : jsstring :=
  trim
    (replace_all re_spaces (str " ")
    (replace_all re_comma (str ", ")
    (replace_all re_period (str ". ")
    (replace_all re_line_break (str " ")
    (replace_all re_spaces (str " ")
    (replace_all re_here_are (str "Discover essential tips for")
    (replace_all re_numbered [] text))))))).

(** [/(?:\.|\?|\!)\s+/] *)
Definition re_sentence_end : regex :=
  Seq (Alt (Chr ".") (Alt (Chr "?") (Chr "!"))) (Plus is_space).

Definition formatDescription (description : jsstring) : jsstring :=
  if is_empty description then []
  else
    let cleaned := cleanDescription description in
    let parts := split_regex re_sentence_end cleaned in
    let firstTwoParts :=
      join (str ". ") (filter truthy_str (map trim (slice0 2 parts))) in
    if (0 <? List.length firstTwoParts)%nat then firstTwoParts ++ str "." else cleaned.

(* ================================================================== *)
(** * Effects: exceptions, the clock, the timer, the console *)

Module Effects.

(** What a [throw] or a rejected promise carries. *)
Inductive exn : Type :=
| Error (message : jsstring)      (* [new Error(message)] *)
| SyntaxError                     (* thrown by [JSON.parse] *)
| TypeError                       (* a property of [null], a call of what is no function *)
| Rejection (reason : jsstring).  (* what the remote client rejects with *)

(** The argument of [hf.textGeneration].  JavaScript numbers are doubles. *)
Record parameters : Type := {
  max_new_tokens : float;
  temperature : float;
  top_p : option float;
  repetition_penalty : option float
}.

Record request : Type := {
  model : jsstring;
  inputs : jsstring;
  params : parameters
}.

Record response : Type := { generated_text : jsstring }.

Inductive event : Type :=
| Requested (r : request)                 (* one call of [hf.textGeneration] *)
| Slept (ms : Z)                          (* [setTimeout(resolve, ms)] awaited *)
| Logged (label : jsstring) (e : exn).    (* [console.error(label, e)] *)

Record World : Type := {
  clock : Z;            (* what [Date.now()] returns *)
  requests : nat;       (* remote requests made so far *)
  trace : list event    (* oldest first *)
}.

Inductive outcome (A : Type) : Type :=
| Returned (a : A)
| Thrown (e : exn).
Arguments Thrown {A} e.

Definition M (A : Type) : Type := World -> outcome A * World.

Definition ret (A : Type) (a : A) : M A := fun w => (Returned a, w).

Definition throw (A : Type) (e : exn) : M A := fun w => (Thrown e, w).
Arguments throw {A} e.

Definition bind (A B : Type) (m : M A) (k : A -> M B) : M B :=
  fun w =>
    match m w with
    | (Returned a, w') => k a w'
    | (Thrown e, w') => (Thrown e, w')
    end.

(** [try { m } catch (error) { handler error }] *)
Definition try_catch (A : Type) (m : M A) (handler : exn -> M A) : M A :=
  fun w =>
    match m w with
    | (Returned a, w') => (Returned a, w')
    | (Thrown e, w') => handler e w'
    end.

Definition Date_now : M Z := fun w => (Returned (clock w), w).

(** [await new Promise(resolve => setTimeout(resolve, delay))] *)
Definition sleep (delay : Z) : M unit :=
  fun w =>
    (Returned tt,
     {| clock := clock w + delay;
        requests := requests w;
        trace := trace w ++ [Slept delay] |}).

Definition console_error (label : jsstring) (e : exn) : M unit :=
  fun w =>
    (Returned tt,
     {| clock := clock w;
        requests := requests w;
        trace := trace w ++ [Logged label e] |}).

End Effects.
Import Effects.

Declare Scope js_scope.
Delimit Scope js_scope with js.
Notation "x <- m ;; k" := (bind m (fun x => k))
  (at level 61, m at next level, right associativity) : js_scope.
Notation "m ;;; k" := (bind m (fun _ => k))
  (at level 61, right associativity) : js_scope.
Open Scope js_scope.

(* ================================================================== *)
(** * Retry policy (api.ts, lines 64-79) *)

(** The loop [for (let i = 0; i < maxRetries; i++)] from index [i] on, with
    [remaining] passes left: the body runs for i = 0 .. maxRetries - 1, that
    is [Z.to_nat maxRetries] times, unless a [return] or a [throw] leaves it
    before.  The counters are integers. *)
Fixpoint retry_loop (T : Type) (fn : M T) (maxRetries baseDelay : Z)
  (remaining : nat) (i : Z) : M T :=
  match remaining with
  | O => throw (Error (str "Max retries reached"))
  | S k =>
      try_catch fn (fun error =>
        if (i =? maxRetries - 1)%Z then throw error
        else
          let delay := (baseDelay * 2 ^ i)%Z in
          sleep delay ;;;
          retry_loop fn maxRetries baseDelay k (i + 1)%Z)
  end.

Definition retryWithBackoff (T : Type) (fn : M T) (maxRetries baseDelay : Z) : M T :=
  retry_loop fn maxRetries baseDelay (Z.to_nat maxRetries) 0%Z.

(** The default arguments [maxRetries = 3] and [baseDelay = 1000]. *)
Definition default_maxRetries : Z := 3.
Definition default_baseDelay : Z := 1000.

(* ================================================================== *)
(** * Values of [JSON.parse] *)

Module JsValue.

Inductive value : Type :=
| VNull
| VBool (b : bool)
| VNumber (x : float)
| VString (s : jsstring)
| VArray (items : list value)
| VObject (props : list (jsstring * value)).

Fixpoint lookup (props : list (jsstring * value)) (key : jsstring) : option value :=
  match props with
  | [] => None
  | (k, v) :: rest => if str_eqb k key then Some v else lookup rest key
  end.

(** [v.key] for a key that no prototype defines ([title], [description],
    [keywords]): [None] is [undefined]; reading a property of [null] throws. *)
Definition get (v : value) (key : jsstring) : M (option value) :=
  match v with
  | VNull => throw TypeError
  | VObject props => ret (lookup props key)
  | VBool _ | VNumber _ | VString _ | VArray _ => ret None
  end.

(** [Boolean(v)]: [undefined], [null], [false], [0], [NaN] and the empty
    string are falsy. *)
Definition truthy (v : option value) : bool :=
  match v with
  | None => false
  | Some VNull => false
  | Some (VBool b) => b
  | Some (VNumber x) => negb (PrimFloat.eqb x 0%float || PrimFloat.is_nan x)
  | Some (VString s) => truthy_str s
  | Some (VArray _) | Some (VObject _) => true
  end.

(** [v.trim()]: only a string has a [trim] that can be called. *)
Definition call_trim (v : option value) : M jsstring :=
  match v with
  | Some (VString s) => ret (trim s)
  | _ => throw TypeError
  end.

(** [formatDescription(v)] for [v] of type [any]: a falsy [v] gives the empty
    string; otherwise [cleanDescription] calls [v.replace], which only a
    string has. *)
Definition formatDescription_any (v : option value) : M jsstring :=
  if negb (truthy v) then ret []
  else match v with
       | Some (VString s) => ret (formatDescription s)
       | _ => throw TypeError
       end.

End JsValue.
Import JsValue.

(* ================================================================== *)
(** * Metadata generator and content analyzer (api.ts, lines 59-62, 98-211) *)

Record PageMetadata : Type := {
  id : Z;
  url : jsstring;
  title : jsstring;
  description : jsstring;
  keywords : jsstring
}.

Definition nl : jsstring := ["010"%char].
Definition dq : jsstring := ["034"%char].
Definition quoted (s : string) : jsstring := dq ++ str s ++ dq.

(** The template literal of [generateLLMMetadata], line by line. *)
Definition metadata_prompt (url content : jsstring) : jsstring :=
  join nl
    [ str "Generate SEO metadata for the following webpage. Format your response in JSON.";
      [];
      str "  URL: " ++ url;
      str "  Content: " ++ content;
      [];
      str "  Requirements:";
      str "  1. Title: Create a clear, complete title that captures the main topic. Keep it concise.";
      str "  2. Description: Write a natural, flowing description (150-160 characters) that summarizes the value proposition. DO NOT use numbered points or lists. Write in complete sentences.";
      str "  3. Keywords: Extract 5 relevant keywords, separated by commas.";
      [];
      str "  Example good descriptions:";
      str "  - " ++ quoted "Discover essential healthy eating strategies for overall well-being. Learn about balanced nutrition and smart food choices for a healthier lifestyle.";
      str "  - " ++ quoted "Explore comprehensive tips for maintaining a healthy diet, including nutrition guidance and practical meal planning strategies.";
      [];
      str "  Bad description example (DO NOT USE):";
      str "  - " ++ quoted "Here are 10 tips for healthy eating: 1. Eat more vegetables 2. Choose whole grains 3. Limit sugar";
      [];
      str "  Response format:";
      str "  {";
      str "    " ++ quoted "title" ++ str ": " ++ quoted "Your complete, concise title here" ++ str ",";
      str "    " ++ quoted "description" ++ str ": " ++ quoted "Your natural, flowing description here" ++ str ",";
      str "    " ++ quoted "keywords" ++ str ": " ++ quoted "keyword1, keyword2, keyword3, keyword4, keyword5";
      str "  }" ].

(** The template literal of [analyzeContent]. *)
Definition analysis_prompt (content : jsstring) : jsstring :=
  join nl
    [ str "Analyze the following content for SEO optimization:";
      content;
      [];
      str "Provide 3-5 suggestions to improve the content for better SEO. Format each suggestion as a separate line." ].

Definition metadata_request (prompt : jsstring) : request :=
  {| model := str "facebook/bart-large-cnn";
     inputs := prompt;
     params := {| max_new_tokens := 300%float;
                  temperature := 0.7%float;
                  top_p := Some 0.95%float;
                  repetition_penalty := Some 1.2%float |} |}.

Definition analysis_request (prompt : jsstring) : request :=
  {| model := str "facebook/bart-large-cnn";
     inputs := prompt;
     params := {| max_new_tokens := 250%float;
                  temperature := 0.7%float;
                  top_p := None;
                  repetition_penalty := None |} |}.

(** [content.split('.')[0]] *)
Definition mainTopic_of (content : jsstring) : jsstring :=
  first_piece (split_on "."%char content).

(** The record both [catch] blocks of [generateLLMMetadata] build: they differ
    in the opening of the description only. *)
Definition fallback_description (opening : string) (mainTopic : jsstring) (closing : string)
  : jsstring :=
  str opening ++ toLowerCase mainTopic ++ str closing.

Definition fallback_fields (now : Z) (url content : jsstring)
  (opening closing : string) : PageMetadata :=
  let mainTopic := mainTopic_of content in
  let fallbackDescription := fallback_description opening mainTopic closing in
  {| id := now;
     url := url;
     title := trim mainTopic;
     description := formatDescription fallbackDescription;
     keywords := extractKeywords content |}.

Definition inner_opening : string := "Discover comprehensive insights about ".
Definition inner_closing : string :=
  ". Get expert guidance and practical strategies for better results.".
Definition outer_opening : string := "Explore essential information about ".
Definition outer_closing : string :=
  ". Find practical tips and expert recommendations for optimal outcomes.".

(** What a failing remote call makes [analyzeContent] return. *)
Definition generic_suggestions : list jsstring :=
  map str
    [ "Ensure your content includes relevant keywords.";
      "Write a compelling meta description.";
      "Use header tags (H1, H2, etc.) to structure your content.";
      "Include internal and external links where appropriate.";
      "Optimize your images with alt text and descriptive file names." ]%string.

Inductive reply : Type :=
| Generated (text : jsstring)
| Failed (e : exn).

Section Pipeline.

(** [JSON.parse]: [None] when it throws a SyntaxError. *)
Variable JSON_parse : jsstring -> option value.

(** The remote inference client: what the [n]-th request (counted from 0)
    answers to a given request. *)
Variable remote : nat -> request -> reply.

(** [hf.textGeneration(req)] *)
Definition textGeneration (req : request) : M response :=
  fun w =>
    let w' := {| clock := clock w;
                 requests := S (requests w);
                 trace := trace w ++ [Requested req] |} in
    match remote (requests w) req with
    | Generated text => (Returned {| generated_text := text |}, w')
    | Failed e => (Thrown e, w')
    end.

(** The inner [try] block: parse, validate, build the record. *)
Definition parse_and_validate (url : jsstring) (r : response) : M PageMetadata :=
  match JSON_parse (generated_text r) with
  | None => throw SyntaxError
  | Some metadata =>
      t <- get metadata (str "title") ;;
      if negb (truthy t) then throw (Error (str "Incomplete metadata")) else
      d <- get metadata (str "description") ;;
      if negb (truthy d) then throw (Error (str "Incomplete metadata")) else
      k <- get metadata (str "keywords") ;;
      if negb (truthy k) then throw (Error (str "Incomplete metadata")) else
      now <- Date_now ;;
      title' <- call_trim t ;;
      description' <- formatDescription_any d ;;
      keywords' <- call_trim k ;;
      ret {| id := now;
             url := url;
             title := title';
             description := description';
             keywords := keywords' |}
  end.

Definition inner_fallback (url content : jsstring) (error : exn) : M PageMetadata :=
  console_error (str "Failed to parse or validate LLM response:") error ;;;
  now <- Date_now ;;
  ret (fallback_fields now url content inner_opening inner_closing).

Definition outer_fallback (url content : jsstring) (error : exn) : M PageMetadata :=
  console_error (str "Error generating metadata with LLM:") error ;;;
  now <- Date_now ;;
  ret (fallback_fields now url content outer_opening outer_closing).

Definition generateLLMMetadata (url content : jsstring) : M PageMetadata :=
  let prompt := metadata_prompt url content in
  try_catch
    (response <-
       retryWithBackoff (textGeneration (metadata_request prompt))
         default_maxRetries default_baseDelay ;;
     try_catch (parse_and_validate url response) (inner_fallback url content))
    (outer_fallback url content).

Definition analyzeContent (content : jsstring) : M (list jsstring) :=
  let prompt := analysis_prompt content in
  try_catch
    (response <-
       retryWithBackoff (textGeneration (analysis_request prompt))
         default_maxRetries default_baseDelay ;;
     ret (filter truthy_str (split_on "010"%char (generated_text response))))
    (fun error =>
       console_error (str "Error analyzing content with LLM:") error ;;;
       ret generic_suggestions).

Definition getPages : M (list PageMetadata) := ret [].

End Pipeline.


(* ================================================================== *)
(** * Dashboard (dashboard.tsx) and page (page.tsx)

    The component's five [useState] cells are one record, the calls of
    [toast] are recorded in their order, and an event handler runs from the
    values of the render it was created in to its end before the next event
    is handled. *)

Module Dashboard.

(** The argument of [toast]; [variant] is absent for the default look. *)
Module Toast.

Record t : Type := {
  title : jsstring;
  description : jsstring;
  variant : option jsstring
}.

End Toast.

Definition notice (title description : string) : Toast.t :=
  {| Toast.title := str title; Toast.description := str description;
     Toast.variant := None |}.

Definition destructive (title description : string) : Toast.t :=
  {| Toast.title := str title; Toast.description := str description;
     Toast.variant := Some (str "destructive") |}.

(** [getSeoScore] (lines 67-73). *)
Definition getSeoScore (page : PageMetadata) : nat :=
  let score := 0 in
  let score :=
    if ((50 <=? List.length (title page)) && (List.length (title page) <=? 60))%bool
    then S score else score in
  let score :=
    if ((150 <=? List.length (description page)) &&
        (List.length (description page) <=? 160))%bool
    then S score else score in
  let score :=
    if 3 <=? List.length (split_on ","%char (keywords page))
    then S score else score in
  score.

(** The description cell of a table row (line 166) and the look of its
    badge (line 172). *)
Definition description_cell (page : PageMetadata) : jsstring :=
  if truthy_str (description page) then description page
  else str "No description available".

Definition badge_variant (page : PageMetadata) : jsstring :=
  if getSeoScore page =? 3 then str "default" else str "secondary".

Record State : Type := {
  pages : list PageMetadata;
  url : jsstring;
  content : jsstring;
  isLoading : bool;
  llmSuggestions : list jsstring
}.

(** The initial values of the [useState] calls (lines 19-23). *)
Definition DashboardComponent (initialPages : list PageMetadata) : State :=
  {| pages := initialPages; url := []; content := []; isLoading := false;
     llmSuggestions := [] |}.

(** [disabled] of the two buttons (lines 127 and 131). *)
Definition generate_disabled (s : State) : bool :=
  (isLoading s || negb (truthy_str (url s)) || negb (truthy_str (content s)))%bool.

Definition analyze_disabled (s : State) : bool :=
  (isLoading s || negb (truthy_str (content s)))%bool.

Record Browser : Type := {
  world : World;
  state : State;
  toasts : list Toast.t     (* oldest first *)
}.

(** Handlers: the effects of [M], the state cells and the toasts. *)
Definition UI (A : Type) : Type := Browser -> outcome A * Browser.

Definition ui_ret (A : Type) (a : A) : UI A := fun b => (Returned a, b).

Definition ui_throw (A : Type) (e : exn) : UI A := fun b => (Thrown e, b).
Arguments ui_throw {A} e.

Definition ui_bind (A B : Type) (m : UI A) (k : A -> UI B) : UI B :=
  fun b =>
    match m b with
    | (Returned a, b') => k a b'
    | (Thrown e, b') => (Thrown e, b')
    end.

(** [await m] for a function of api.ts. *)
Definition await (A : Type) (m : M A) : UI A :=
  fun b =>
    let (o, w') := m (world b) in
    (o, {| world := w'; state := state b; toasts := toasts b |}).

(** [try { body } catch { handler } finally { finalizer }] *)
Definition try_catch_finally (A : Type) (body handler : UI A) (finalizer : UI unit) : UI A :=
  fun b =>
    let (o, b1) := match body b with
                   | (Returned a, b') => (Returned a, b')
                   | (Thrown _, b') => handler b'
                   end in
    match finalizer b1 with
    | (Returned _, b2) => (o, b2)
    | (Thrown e, b2) => (Thrown e, b2)
    end.

Definition update (f : State -> State) : UI unit :=
  fun b => (Returned tt, {| world := world b; state := f (state b); toasts := toasts b |}).

Definition setPages (v : list PageMetadata) : UI unit :=
  update (fun s => {| pages := v; url := url s; content := content s;
                      isLoading := isLoading s; llmSuggestions := llmSuggestions s |}).

Definition setUrl (v : jsstring) : UI unit :=
  update (fun s => {| pages := pages s; url := v; content := content s;
                      isLoading := isLoading s; llmSuggestions := llmSuggestions s |}).

Definition setContent (v : jsstring) : UI unit :=
  update (fun s => {| pages := pages s; url := url s; content := v;
                      isLoading := isLoading s; llmSuggestions := llmSuggestions s |}).

Definition setIsLoading (v : bool) : UI unit :=
  update (fun s => {| pages := pages s; url := url s; content := content s;
                      isLoading := v; llmSuggestions := llmSuggestions s |}).

Definition setLlmSuggestions (v : list jsstring) : UI unit :=
  update (fun s => {| pages := pages s; url := url s; content := content s;
                      isLoading := isLoading s; llmSuggestions := v |}).

Definition toast (t : Toast.t) : UI unit :=
  fun b => (Returned tt, {| world := world b; state := state b; toasts := toasts b ++ [t] |}).

Declare Scope ui_scope.
Delimit Scope ui_scope with ui.
Notation "x <- m ;; k" := (ui_bind m (fun x => k))
  (at level 61, m at next level, right associativity) : ui_scope.
Notation "m ;;; k" := (ui_bind m (fun _ => k))
  (at level 61, right associativity) : ui_scope.

Section Handlers.

Variable JSON_parse : jsstring -> option value.
Variable remote : nat -> request -> reply.

Local Open Scope ui_scope.

(** [resetForm] (lines 62-65). *)
Definition resetForm : UI unit :=
  setUrl [] ;;; setContent [].

(** [generateMetadata] (lines 27-60); [render] holds the values of [url],
    [content] and [pages] the handler was created with. *)
Definition generateMetadata (render : State) : UI unit :=
  if (negb (truthy_str (url render)) || negb (truthy_str (content render)))%bool then
    toast (destructive "Missing information" "Please provide both URL and content.")
  else
    setIsLoading true ;;;
    try_catch_finally
      (newPage <- await (generateLLMMetadata JSON_parse remote (url render) (content render)) ;;
       if (negb (truthy_str (title newPage)) || negb (truthy_str (description newPage))
           || negb (truthy_str (keywords newPage)))%bool
       then ui_throw (Error (str "Incomplete metadata generated"))
       else
         setPages (pages render ++ [newPage]) ;;;
         resetForm ;;;
         toast (notice "Metadata generated successfully"
                  "LLM-powered metadata has been added to your pages."))
      (toast (destructive "Error generating metadata"
                "Failed to generate complete metadata. Please try again."))
      (setIsLoading false).

(** [handleAnalyzeContent] (lines 75-102). *)
Definition handleAnalyzeContent (render : State) : UI unit :=
  if negb (truthy_str (content render)) then
    toast (destructive "Missing content" "Please provide content to analyze.")
  else
    setIsLoading true ;;;
    try_catch_finally
      (suggestions <- await (analyzeContent remote (content render)) ;;
       setLlmSuggestions suggestions ;;;
       toast (notice "Content analyzed successfully"
                "LLM-powered suggestions are now available."))
      (toast (destructive "Error analyzing content"
                "An error occurred while analyzing the content. Please try again."))
      (setIsLoading false).

(** What the user does: typing into the two fields (lines 115 and 121) and
    clicking the two buttons; a disabled button does not call its handler. *)
Inductive action : Type :=
| TypeUrl (value : jsstring)
| TypeContent (value : jsstring)
| ClickGenerate
| ClickAnalyze.

Definition handle (a : action) : UI unit :=
  fun b =>
    match a with
    | TypeUrl value => setUrl value b
    | TypeContent value => setContent value b
    | ClickGenerate =>
        if generate_disabled (state b) then (Returned tt, b)
        else generateMetadata (state b) b
    | ClickAnalyze =>
        if analyze_disabled (state b) then (Returned tt, b)
        else handleAnalyzeContent (state b) b
    end.

(** The browser after the actions, each handled to its end. *)
Fixpoint run (actions : list action) (b : Browser) : Browser :=
  match actions with
  | [] => b
  | a :: rest => run rest (snd (handle a b))
  end.

End Handlers.

(** [Page] (page.tsx, lines 10-19): the component is mounted with what
    [getPages] returns. *)
Definition Page : M State :=
  (initialPages <- getPages ;;
   ret (DashboardComponent initialPages))%js.

End Dashboard.
(* ================================================================== *)
(** * Reference definitions

    The worlds, client behaviours and outcomes the statements below speak
    about, what the specification says in words written down beside the
    code's definitions, and the classes of text of the formatting results. *)

(** ** Worlds and client behaviours *)

(** The world after one request, after one sleep, after one console line. *)
Definition requested (req : request) (w : World) : World :=
  {| clock := clock w; requests := S (requests w); trace := trace w ++ [Requested req] |}.

Definition slept (ms : Z) (w : World) : World :=
  {| clock := clock w + ms; requests := requests w; trace := trace w ++ [Slept ms] |}.

Definition logged (label : string) (e : exn) (w : World) : World :=
  {| clock := clock w; requests := requests w; trace := trace w ++ [Logged (str label) e] |}.

(** The three requests starting with request number [n] all fail. *)
Definition fails_thrice (remote : nat -> request -> reply) (req : request) (n : nat)
  (e1 e2 e3 : exn) : Prop :=
  remote n req = Failed e1 /\ remote (S n) req = Failed e2 /\
  remote (S (S n)) req = Failed e3.

(** One of the three requests starting with number [n] is answered with
    [text], the ones before it having failed; [k] is its index (0, 1, 2). *)
Definition answered_at (remote : nat -> request -> reply) (req : request) (n : nat)
  (k : nat) (text : jsstring) : Prop :=
  k < 3 /\ remote (n + k) req = Generated text /\
  forall j, j < k -> exists e, remote (n + j) req = Failed e.

(** The world in which the request of index [k] of a retried call has been
    made: a request, then a sleep and a request for each retry. *)
Fixpoint after_attempts (req : request) (k : nat) (w : World) : World :=
  match k with
  | O => requested req w
  | S j => requested req (slept (1000 * 2 ^ Z.of_nat j) (after_attempts req j w))
  end.

(** The remote request as both entry points make it: through the retry
    policy with its default arguments. *)
Definition retried_call (remote : nat -> request -> reply) (req : request) : M response :=
  retryWithBackoff (textGeneration remote req) default_maxRetries default_baseDelay.

(** The remote call of [generateLLMMetadata]. *)
Definition metadata_call (remote : nat -> request -> reply) (url0 content : jsstring)
  : M response :=
  retried_call remote (metadata_request (metadata_prompt url0 content)).

(** ** Parsed answers *)

(** [v] has a truthy property [key]; [null] has no property at all. *)
Definition has_truthy (v : value) (key : string) : bool :=
  match v with
  | VObject props => truthy (lookup props (str key))
  | _ => false
  end.

(** The three fields of a parsed answer that passes validation and whose
    methods can be called: non-empty strings. *)
Definition valid_fields (v : value) : option (jsstring * jsstring * jsstring) :=
  match v with
  | VObject props =>
      match lookup props (str "title"), lookup props (str "description"),
            lookup props (str "keywords") with
      | Some (VString t), Some (VString d), Some (VString k) =>
          if (truthy_str t && truthy_str d && truthy_str k)%bool
          then Some (t, d, k) else None
      | _, _, _ => None
      end
  | _ => None
  end.

(** The three ways [generateLLMMetadata] ends, each with the record it
    returns: the outer [catch], the inner [catch], the [return] of the inner
    [try]. *)
Inductive ending (JSON_parse : jsstring -> option value) (remote : nat -> request -> reply)
  (url0 content : jsstring) (w : World) (pm : PageMetadata) : Prop :=
| Outer (e : exn) (w1 : World) :
    metadata_call remote url0 content w = (Thrown e, w1) ->
    pm = fallback_fields (clock w1) url0 content outer_opening outer_closing ->
    ending JSON_parse remote url0 content w pm
| Inner (r : response) (w1 : World) (e : exn) :
    metadata_call remote url0 content w = (Returned r, w1) ->
    parse_and_validate JSON_parse url0 r w1 = (Thrown e, w1) ->
    pm = fallback_fields (clock w1) url0 content inner_opening inner_closing ->
    ending JSON_parse remote url0 content w pm
| Success (r : response) (w1 : World) (v : value) (t d k : jsstring) :
    metadata_call remote url0 content w = (Returned r, w1) ->
    JSON_parse (generated_text r) = Some v ->
    valid_fields v = Some (t, d, k) ->
    pm = {| id := clock w1; url := url0; title := trim t;
            description := formatDescription d; keywords := trim k |} ->
    ending JSON_parse remote url0 content w pm.

(** ** In the words of the specification *)

Definition emit (line : jsstring) : list jsstring :=
  if is_empty line then [] else [line].

(** The content analyzer's result: the text split on newlines, the empty
    lines discarded, the rest in their order.  One pass over the text,
    [line] being the line read so far. *)
Fixpoint nonempty_lines (line text : jsstring) : list jsstring :=
  match text with
  | [] => emit line
  | c :: text' =>
      if Ascii.eqb c "010"%char then emit line ++ nonempty_lines [] text'
      else nonempty_lines (line ++ [c]) text'
  end.

(** [extractKeywords]: lower-case the content, strip every character that
    is neither a word character nor whitespace, split on whitespace, discard
    the stop words and the words of length <= 3, de-duplicate keeping the
    first occurrence, and join the first five with a comma and a space. *)
Definition strip_non_word_space (s : jsstring) : jsstring :=
  filter (fun c => is_word c || is_space c)%bool s.

(** The maximal runs of characters that are not whitespace, [word] being the
    run read so far. *)
Fixpoint words_of (word s : jsstring) : list jsstring :=
  match s with
  | [] => emit word
  | c :: s' =>
      if is_space c then emit word ++ words_of [] s'
      else words_of (word ++ [c]) s'
  end.

Definition stop_word (word : jsstring) : bool :=
  existsb (str_eqb word)
    (map str ["and"; "the"; "for"; "in"; "to"; "of"; "a"; "with"; "by"; "on"; "your"]%string).

Definition kept_word (word : jsstring) : bool :=
  (negb (List.length word <=? 3) && negb (stop_word word))%bool.

(** [seen] holds the words met so far. *)
Fixpoint first_occurrences (seen words : list jsstring) : list jsstring :=
  match words with
  | [] => []
  | word :: rest =>
      if existsb (str_eqb word) seen then first_occurrences seen rest
      else word :: first_occurrences (word :: seen) rest
  end.

Definition extractKeywords_spec (content : jsstring) : jsstring :=
  join (str ", ")
    (firstn 5
       (first_occurrences []
          (filter kept_word
             (words_of [] (strip_non_word_space (toLowerCase content)))))).

(** What is left of [s] after its longest prefix of characters in [p]. *)
Fixpoint skip_while (p : ascii -> bool) (s : jsstring) : jsstring :=
  match s with
  | c :: s' => if p c then skip_while p s' else s
  | [] => []
  end.



(** ** Classes of characters and of text *)

(** [line] put in front of the first piece. *)
Definition prepend (line : jsstring) (pieces : list jsstring) : list jsstring :=
  match pieces with
  | piece :: rest => (line ++ piece) :: rest
  | [] => [line]
  end.

(** A character that is not whitespace. *)
Definition visible (c : ascii) : bool := negb (is_space c).

(** The text is empty or starts with a character that is not whitespace. *)
Definition starts_visible (s : jsstring) : bool :=
  match s with [] => true | c :: _ => visible c end.

(** A character none of the seven patterns of [cleanDescription] can start
    a match with. *)
Definition inert (c : ascii) : bool :=
  (negb (is_space c) && negb (is_digit c) && negb (Ascii.eqb "." c)
   && negb (Ascii.eqb "," c) && negb (Ascii.eqb (canonicalize c) "H"))%bool.

(** A character the patterns for numbered points, list introductions, line
    breaks and commas cannot meet in a match. *)
Definition quiet (c : ascii) : bool :=
  (negb (is_digit c) && negb (Ascii.eqb "," c) && negb (Ascii.eqb "010" c))%bool.

(** Every whitespace character is a space that no whitespace follows. *)
Fixpoint single_spaced (s : jsstring) : bool :=
  match s with
  | [] => true
  | c :: s' =>
      ((if is_space c
        then Ascii.eqb c " " &&
             match s' with [] => true | d :: _ => negb (is_space d) end
        else true) && single_spaced s')%bool
  end.

(** A character of a plain word: no whitespace, no digit, none of [. , ? !]. *)
Definition plain (c : ascii) : bool :=
  (negb (is_space c) && negb (is_digit c) && negb (Ascii.eqb "." c)
   && negb (Ascii.eqb "," c) && negb (Ascii.eqb "?" c) && negb (Ascii.eqb "!" c))%bool.

(** A sentence without its final period: plain words, one space between two. *)
Fixpoint fragment (s : jsstring) : bool :=
  match s with
  | [] => false
  | c :: s' =>
      (plain c &&
       match s' with
       | [] => true
       | d :: s'' => if Ascii.eqb d " " then fragment s'' else fragment s'
       end)%bool
  end.

(** One plain sentence or two, without the final period. *)
Inductive body : jsstring -> Prop :=
| body_one (a : jsstring) : fragment a = true -> body a
| body_two (a b : jsstring) :
    fragment a = true -> fragment b = true -> body (a ++ str ". " ++ b).

(** ** Shapes of the normaliser's results *)

(** A character of a keyword: [a-z0-9_]. *)
Definition keyword_char (c : ascii) : bool :=
  (in_range 97 122 c || is_digit c || N.eqb (code c) 95)%bool.

(** A keyword as [extractKeywords] lets it through: more than three
    characters, all of them keyword characters, and no stop word. *)
Definition keyword (word : jsstring) : bool :=
  ((3 <? List.length word) && forallb keyword_char word
   && negb (Set_has commonWords word))%bool.

(** The text is empty or ends with a character that is not whitespace. *)
Definition ends_visible (s : jsstring) : bool := starts_visible (rev s).

(** No whitespace at either end. *)
Definition trimmed (s : jsstring) : bool := (starts_visible s && ends_visible s)%bool.

(** No whitespace at either end, and inside only single spaces. *)
Definition tidy (s : jsstring) : bool := (single_spaced s && trimmed s)%bool.

(** A non-empty line: no newline in it. *)
Definition single_line (s : jsstring) : bool :=
  (negb (is_empty s) && forallb (fun c => negb (Ascii.eqb c "010")) s)%bool.


(** [p] occurs in [s] as a run of consecutive characters. *)
Definition substring (p s : jsstring) : Prop := exists a b, s = a ++ p ++ b.

(** The pieces into which plain sentences are split at their ends: the
    sentences, the last one with the [tail] of the text. *)
Fixpoint pieces (tail : jsstring) (l : list jsstring) : list jsstring :=
  match l with
  | [] => []
  | [a] => [a ++ tail]
  | a :: l' => a :: pieces tail l'
  end.

(** ** The dashboard after a click *)

(** A record the dashboard accepts: title, description and keywords are not
    empty. *)
Definition complete (page : PageMetadata) : bool :=
  (truthy_str (title page) && truthy_str (description page)
   && truthy_str (keywords page))%bool.

(** The number of commas of a text. *)
Definition commas (s : jsstring) : nat :=
  List.length (filter (fun c => Ascii.eqb c ","%char) s).

(** The browser in which [page] has been added to the pages [before]: the
    form is empty again and the success toast is shown. *)
Definition added (before : list PageMetadata) (page : PageMetadata) (w : World)
  (b : Dashboard.Browser) : Dashboard.Browser :=
  {| Dashboard.world := w;
     Dashboard.state :=
       {| Dashboard.pages := before ++ [page];
          Dashboard.url := [];
          Dashboard.content := [];
          Dashboard.isLoading := false;
          Dashboard.llmSuggestions := Dashboard.llmSuggestions (Dashboard.state b) |};
     Dashboard.toasts :=
       Dashboard.toasts b ++
       [Dashboard.notice "Metadata generated successfully"
          "LLM-powered metadata has been added to your pages."] |}.

(** The browser in which the generated record has been turned down: pages
    and form are as they were and the error toast is shown. *)
Definition refused (w : World) (b : Dashboard.Browser) : Dashboard.Browser :=
  {| Dashboard.world := w;
     Dashboard.state :=
       {| Dashboard.pages := Dashboard.pages (Dashboard.state b);
          Dashboard.url := Dashboard.url (Dashboard.state b);
          Dashboard.content := Dashboard.content (Dashboard.state b);
          Dashboard.isLoading := false;
          Dashboard.llmSuggestions := Dashboard.llmSuggestions (Dashboard.state b) |};
     Dashboard.toasts :=
       Dashboard.toasts b ++
       [Dashboard.destructive "Error generating metadata"
          "Failed to generate complete metadata. Please try again."] |}.

(** The browser in which the suggestions are shown with the success toast. *)
Definition analyzed (suggestions : list jsstring) (w : World) (b : Dashboard.Browser)
  : Dashboard.Browser :=
  {| Dashboard.world := w;
     Dashboard.state :=
       {| Dashboard.pages := Dashboard.pages (Dashboard.state b);
          Dashboard.url := Dashboard.url (Dashboard.state b);
          Dashboard.content := Dashboard.content (Dashboard.state b);
          Dashboard.isLoading := false;
          Dashboard.llmSuggestions := suggestions |};
     Dashboard.toasts :=
       Dashboard.toasts b ++
       [Dashboard.notice "Content analyzed successfully"
          "LLM-powered suggestions are now available."] |}.

(** The browser right after the page is loaded in world [w]. *)
Definition mounted (s : Dashboard.State) (w : World) : Dashboard.Browser :=
  {| Dashboard.world := w; Dashboard.state := s; Dashboard.toasts := [] |}.

(** The toasts a click can lead to. *)
Definition shown_toasts : list Dashboard.Toast.t :=
  [ Dashboard.notice "Metadata generated successfully"
      "LLM-powered metadata has been added to your pages.";
    Dashboard.destructive "Error generating metadata"
      "Failed to generate complete metadata. Please try again.";
    Dashboard.notice "Content analyzed successfully"
      "LLM-powered suggestions are now available." ].

(** The browser of a freshly loaded page into whose form a URL and a content
    have been typed. *)
Definition filled (url0 content0 : jsstring) (w : World) : Dashboard.Browser :=
  {| Dashboard.world := w;
     Dashboard.state :=
       {| Dashboard.pages := [];
          Dashboard.url := url0;
          Dashboard.content := content0;
          Dashboard.isLoading := false;
          Dashboard.llmSuggestions := [] |};
     Dashboard.toasts := [] |}.
(* ================================================================== *)
(** * Concrete worlds, clients and parsers *)

Module Examples.

Definition w0 : World := {| clock := 1700000000000; requests := 0; trace := [] |}.

(** A client that is down: every request is rejected, each with its own reason. *)
Definition failing_remote : nat -> request -> reply :=
  fun n _ => Failed (Rejection (nth n [str "first"; str "second"; str "third"] (str "later"))).

(** A client that answers every request with [text]. *)
Definition answering (text : jsstring) : nat -> request -> reply :=
  fun _ _ => Generated text.

(** A client that rejects the first request and answers the later ones. *)
Definition flaky (text : jsstring) : nat -> request -> reply :=
  fun n _ => match n with O => Failed (Rejection (str "busy")) | S _ => Generated text end.

(** A parser that rejects every text, and one that reads every text as [v]. *)
Definition no_json : jsstring -> option value := fun _ => None.
Definition parses_to (v : value) : jsstring -> option value := fun _ => Some v.

(** A parsed answer with its three fields. *)
Definition answer (t d k : string) : value :=
  VObject [ (str "title", VString (str t));
            (str "description", VString (str d));
            (str "keywords", VString (str k)) ].

End Examples.

(* ================================================================== *)
(** * Properties *)

(** ** Strings *)

Lemma str_eqb_eq (a b : jsstring) : str_eqb a b = true <-> a = b.
Proof.
  revert b. induction a as [|x a IH]; intros [|y b]; simpl; split; intros H;
    try discriminate; try reflexivity.
  - apply andb_true_iff in H as [Hx Hab].
    apply Ascii.eqb_eq in Hx. apply IH in Hab. now subst.
  - inversion H; subst. rewrite Ascii.eqb_refl. simpl. now apply IH.
Qed.

(** ** The matcher *)

Section MatcherFacts.

Variable p : ascii -> bool.

(** Every way to iterate a class leaves a suffix of the subject. *)
Lemma star_ends_suffix (s t : jsstring) :
  In t (star_ends p s) -> exists m, s = m ++ t.
Proof.
  induction s as [|c s IH]; simpl.
  - intros [<- | []]. now exists [].
  - destruct (p c) eqn:Hc.
    + intros H. apply in_app_or in H as [H | [<- | []]].
      * destruct (IH H) as (m & ->). now exists (c :: m).
      * now exists [].
    + intros [<- | []]. now exists [].
Qed.

(** The longest run is tried first. *)
Lemma star_ends_head (s : jsstring) :
  exists others, star_ends p s = skip_while p s :: others.
Proof.
  induction s as [|c s (others & IH)]; simpl.
  - now exists [].
  - destruct (p c).
    + rewrite IH. simpl. eauto.
    + now exists [].
Qed.

Lemma skip_while_suffix (s : jsstring) :
  exists m, s = m ++ skip_while p s /\ Forall (fun c => p c = true) m.
Proof.
  induction s as [|c s (m & Hm & Hall)]; simpl.
  - now exists [].
  - destruct (p c) eqn:Hc.
    + exists (c :: m). split; [simpl; now f_equal | now constructor].
    + now exists [].
Qed.

Lemma exec_Plus_miss (c : ascii) (s : jsstring) :
  p c = false -> exec (Plus p) (c :: s) = None.
Proof. intros H. unfold exec. simpl. now rewrite H. Qed.

Lemma exec_Plus_hit (c : ascii) (s : jsstring) :
  p c = true -> exec (Plus p) (c :: s) = Some (skip_while p s).
Proof.
  intros H. unfold exec. simpl. rewrite H. simpl. rewrite app_nil_r.
  destruct (star_ends_head s) as (others & ->). reflexivity.
Qed.

Lemma exec_Class (c : ascii) (s : jsstring) :
  exec (Class p) (c :: s) = if p c then Some s else None.
Proof. unfold exec. simpl. now destruct (p c). Qed.

End MatcherFacts.

(** ** Replacing and splitting *)

Section ScanFacts.

Variable r : regex.

Lemma replace_from_skip (rep m t : jsstring) :
  replace_from r rep (List.length m) (m ++ t) = replace_from r rep 0 t.
Proof.
  induction m as [|c m IH]; [reflexivity | exact IH].
Qed.

Lemma replace_all_nil (rep : jsstring) :
  exec r [] = None -> replace_all r rep [] = [].
Proof. intros H. unfold replace_all. simpl. now rewrite H. Qed.

Lemma replace_all_keep (rep : jsstring) (c : ascii) (s : jsstring) :
  exec r (c :: s) = None ->
  replace_all r rep (c :: s) = c :: replace_all r rep s.
Proof. intros H. unfold replace_all. simpl. now rewrite H. Qed.

Lemma replace_all_match (rep : jsstring) (c : ascii) (m t : jsstring) :
  exec r (c :: m ++ t) = Some t ->
  replace_all r rep (c :: m ++ t) = rep ++ replace_all r rep t.
Proof.
  intros H. unfold replace_all. cbn [replace_from]. rewrite H.
  replace (List.length (c :: m ++ t) - List.length t) with (S (List.length m))
    by (change (List.length (c :: m ++ t)) with (S (List.length (m ++ t)));
        rewrite length_app; lia).
  now rewrite replace_from_skip.
Qed.

Lemma split_from_skip (m t : jsstring) :
  split_from r (List.length m) true (m ++ t) = split_from r 0 true t.
Proof.
  induction m as [|c m IH]; [reflexivity | exact IH].
Qed.

Lemma split_from_keep (fresh : bool) (c : ascii) (s : jsstring) :
  exec r (c :: s) = None ->
  split_from r 0 fresh (c :: s) = push c (split_from r 0 false s).
Proof. intros H. simpl. now rewrite H. Qed.

Lemma split_from_match (fresh : bool) (c : ascii) (m t : jsstring) :
  exec r (c :: m ++ t) = Some t ->
  split_from r 0 fresh (c :: m ++ t) = [] :: split_from r 0 true t.
Proof.
  intros H. cbn [split_from]. rewrite H.
  replace (List.length (c :: m ++ t) - List.length t) with (S (List.length m))
    by (change (List.length (c :: m ++ t)) with (S (List.length (m ++ t)));
        rewrite length_app; lia).
  now rewrite split_from_skip.
Qed.

Lemma prepend_push (line : jsstring) (c : ascii) (pieces : list jsstring) :
  prepend line (push c pieces) = prepend (line ++ [c]) pieces.
Proof.
  destruct pieces; simpl; now rewrite <- ?app_assoc.
Qed.

Lemma prepend_nil (pieces : list jsstring) :
  pieces <> [] -> prepend [] pieces = pieces.
Proof. destruct pieces; [congruence | reflexivity]. Qed.

Lemma push_nonempty (c : ascii) (pieces : list jsstring) : push c pieces <> [].
Proof. destruct pieces; discriminate. Qed.

Lemma split_from_nonempty (skip : nat) (fresh : bool) (s : jsstring) :
  split_from r skip fresh s <> [].
Proof.
  revert skip fresh. induction s as [|c s IH]; intros skip fresh; cbn [split_from].
  - discriminate.
  - destruct skip; [|apply IH].
    destruct (exec r (c :: s)) as [t|]; [|apply push_nonempty].
    destruct (List.length (c :: s) - List.length t); [|discriminate].
    destruct fresh; [apply push_nonempty | discriminate].
Qed.

End ScanFacts.

(** ** [extractKeywords] against its description *)

Lemma strip_is_filter (s : jsstring) :
  replace_all re_not_word_space [] s = strip_non_word_space s.
Proof.
  induction s as [|c s IH]; [reflexivity|].
  unfold re_not_word_space in *. simpl strip_non_word_space.
  destruct (is_word c || is_space c)%bool eqn:Hc.
  - rewrite replace_all_keep; [now rewrite IH|].
    rewrite exec_Class. now rewrite Hc.
  - rewrite (@replace_all_match _ [] c [] s); [exact IH|].
    rewrite exec_Class. now rewrite Hc.
Qed.

Lemma words_of_skip (s : jsstring) :
  words_of [] s = words_of [] (skip_while is_space s).
Proof.
  induction s as [|c s IH]; [reflexivity|]. cbn [words_of skip_while].
  destruct (is_space c) eqn:Hc; [exact IH|].
  cbn [words_of]. now rewrite Hc.
Qed.

Lemma filter_prepend_cons (line : jsstring) (pieces : list jsstring) :
  pieces <> [] ->
  filter truthy_str (line :: pieces) = emit line ++ filter truthy_str (prepend [] pieces).
Proof.
  intros H. rewrite prepend_nil by assumption. now destruct line.
Qed.

(** Splitting on runs of whitespace and dropping the empty pieces gives the
    maximal runs of the other characters. *)
Lemma split_spaces_words (n : nat) :
  forall (s word : jsstring) (fresh : bool),
    List.length s < n ->
    filter truthy_str (prepend word (split_from re_spaces 0 fresh s)) = words_of word s.
Proof.
  induction n as [|n IH]; intros s word fresh Hn; [lia|].
  destruct s as [|c s].
  - simpl. rewrite app_nil_r. now destruct word.
  - destruct (is_space c) eqn:Hc.
    + destruct (skip_while_suffix is_space s) as (m & Hm & _).
      pose proof (exec_Plus_hit is_space c s Hc) as Hexec.
      rewrite Hm in Hexec at 1.
      rewrite Hm at 1.
      rewrite (@split_from_match re_spaces fresh c m (skip_while is_space s) Hexec).
      cbn [prepend]. rewrite app_nil_r.
      rewrite filter_prepend_cons by apply split_from_nonempty.
      rewrite IH.
      * cbn [words_of]. rewrite Hc. now rewrite <- words_of_skip.
      * simpl in Hn. assert (List.length s = List.length m + List.length (skip_while is_space s)).
        { rewrite Hm at 1. now rewrite length_app. }
        lia.
    + rewrite split_from_keep by now apply exec_Plus_miss.
      rewrite prepend_push. rewrite IH by (simpl in Hn; lia).
      cbn [words_of]. now rewrite Hc.
Qed.

Lemma split_regex_words (s : jsstring) :
  filter truthy_str (split_regex re_spaces s) = words_of [] s.
Proof.
  destruct s as [|c s]; [reflexivity|].
  unfold split_regex.
  rewrite <- (@split_spaces_words (S (S (List.length s))) (c :: s) [] true) by (simpl; lia).
  now rewrite prepend_nil by apply split_from_nonempty.
Qed.

Lemma filter_implied (A : Type) (f g : A -> bool) (l : list A) :
  (forall x, f x = true -> g x = true) ->
  filter f (filter g l) = filter f l.
Proof.
  intros H. induction l as [|x l IH]; [reflexivity|]. simpl.
  destruct (g x) eqn:Hg; simpl.
  - now rewrite IH.
  - destruct (f x) eqn:Hf; [|exact IH].
    apply H in Hf. congruence.
Qed.

Lemma kept_word_source (word : jsstring) :
  ((3 <? List.length word) && negb (Set_has commonWords word))%bool = kept_word word.
Proof.
  unfold kept_word. now rewrite Nat.ltb_antisym.
Qed.

Lemma kept_word_truthy (word : jsstring) : kept_word word = true -> truthy_str word = true.
Proof. now destruct word. Qed.

(** A Set filled in order lists the first occurrences. *)
Lemma Set_first_occurrences (words set seen : list jsstring) :
  (forall word, Set_has set word = existsb (str_eqb word) seen) ->
  fold_left Set_add words set = set ++ first_occurrences seen words.
Proof.
  revert set seen. induction words as [|word words IH]; intros set seen Hsame.
  - simpl. now rewrite app_nil_r.
  - simpl. unfold Set_add at 2. rewrite Hsame.
    destruct (existsb (str_eqb word) seen) eqn:Hseen.
    + now apply IH.
    + rewrite (IH (set ++ [word]) (word :: seen)).
      * now rewrite <- app_assoc.
      * intros x. unfold Set_has. rewrite existsb_app. simpl.
        fold (Set_has set x). rewrite Hsame.
        now rewrite orb_false_r, orb_comm.
Qed.

Lemma Array_from_Set_first_occurrences (words : list jsstring) :
  Array_from_Set words = first_occurrences [] words.
Proof.
  unfold Array_from_Set. now rewrite (Set_first_occurrences words [] []).
Qed.

Lemma extractKeywords_refines (content : jsstring) :
  extractKeywords content = extractKeywords_spec content.
Proof.
  unfold extractKeywords, extractKeywords_spec, slice0.
  rewrite Array_from_Set_first_occurrences, strip_is_filter.
  rewrite (filter_ext _ _ kept_word_source).
  rewrite <- (@filter_implied _ kept_word truthy_str _ kept_word_truthy).
  now rewrite split_regex_words.
Qed.

(** C4 (amended): [extractKeywords] is what the spec describes: the content
    lower-cased, stripped of what is neither word character nor whitespace,
    split on whitespace, without the stop words and the words of length <= 3,
    de-duplicated keeping the first occurrence, the first five joined by a
    comma and a space; the empty input gives the empty string.  On "The quick
    brown fox jumps over the lazy dog" this is "quick, brown, jumps, over,
    lazy": "fox" has three letters and is discarded like "the" and "dog". *)
Theorem extractKeywords_as_described :
  (forall content, extractKeywords content = extractKeywords_spec content) /\
  extractKeywords [] = [] /\
  extractKeywords (str "The quick brown fox jumps over the lazy dog")
    = str "quick, brown, jumps, over, lazy".
Proof.
  split; [exact extractKeywords_refines|].
  split; vm_compute; reflexivity.
Qed.

(** C4 as stated fails: the result on the spec's own example is not
    "quick, brown, fox, jumps, over". *)
Lemma extractKeywords_drops_fox :
  extractKeywords (str "The quick brown fox jumps over the lazy dog")
    <> str "quick, brown, fox, jumps, over".
Proof. vm_compute. discriminate. Qed.

(** ** Trimming *)

Lemma trimStart_is_skip (s : jsstring) : trimStart s = skip_while is_space s.
Proof. induction s as [|c s IH]; simpl; [reflexivity | now rewrite IH]. Qed.

Lemma trimStart_visible (s : jsstring) :
  existsb visible (trimStart s) = existsb visible s.
Proof.
  induction s as [|c s IH]; [reflexivity|]. simpl. unfold visible at 2.
  destruct (is_space c) eqn:Hc; simpl; [exact IH|].
  unfold visible at 1. now rewrite Hc.
Qed.

Lemma trimStart_nonempty (s : jsstring) :
  trimStart s <> [] <-> existsb visible s = true.
Proof.
  induction s as [|c s IH]; simpl.
  - split; [congruence | discriminate].
  - unfold visible at 1. destruct (is_space c); simpl; [exact IH|].
    split; [reflexivity | discriminate].
Qed.

Lemma existsb_rev (A : Type) (f : A -> bool) (l : list A) :
  existsb f (rev l) = existsb f l.
Proof.
  induction l as [|x l IH]; [reflexivity|]. simpl.
  rewrite existsb_app, IH. simpl. now rewrite orb_false_r, orb_comm.
Qed.

Lemma rev_nonempty (A : Type) (l : list A) : rev l <> [] <-> l <> [].
Proof.
  split; intros H E; apply H.
  - now subst.
  - rewrite <- (rev_involutive l). now rewrite E.
Qed.

(** [trim] leaves something exactly when the string has a character that is
    not whitespace. *)
Lemma trim_nonempty (s : jsstring) :
  trim s <> [] <-> existsb visible s = true.
Proof.
  unfold trim, trimEnd.
  transitivity (trimStart (rev (trimStart s)) <> []); [apply rev_nonempty|].
  transitivity (existsb visible (rev (trimStart s)) = true); [apply trimStart_nonempty|].
  now rewrite existsb_rev, trimStart_visible.
Qed.

(** ** The head of a description survives the cleaning *)

Lemma inert_parts (c : ascii) :
  inert c = true ->
  is_space c = false /\ is_digit c = false /\ Ascii.eqb "." c = false /\
  Ascii.eqb "," c = false /\ Ascii.eqb (canonicalize c) "H" = false.
Proof.
  unfold inert. intros H.
  repeat (apply andb_true_iff in H as [H ?]).
  repeat split; now apply negb_true_iff.
Qed.

Section InertHead.

Variable c : ascii.
Hypothesis Hinert : inert c = true.

Local Abbreviation Hparts := (inert_parts c Hinert).

Lemma inert_not_newline : Ascii.eqb "010" c = false.
Proof.
  destruct Hparts as (Hs & _).
  destruct (Ascii.eqb "010" c) eqn:E; trivial.
  apply Ascii.eqb_eq in E. subst c. discriminate.
Qed.

Lemma exec_numbered_inert (s : jsstring) : exec re_numbered (c :: s) = None.
Proof.
  destruct Hparts as (_ & Hd & _). unfold exec, re_numbered.
  cbn [matches one]. now rewrite Hd.
Qed.

Lemma exec_here_are_inert (s : jsstring) : exec re_here_are (c :: s) = None.
Proof.
  destruct Hparts as (_ & _ & _ & _ & Hh). unfold exec, re_here_are, lit_i.
  cbn [list_ascii_of_string fold_right matches one].
  change (canonicalize "h") with "H"%char. now rewrite Hh.
Qed.

Lemma exec_spaces_inert (s : jsstring) : exec re_spaces (c :: s) = None.
Proof.
  destruct Hparts as (Hs & _). now apply exec_Plus_miss.
Qed.

Lemma exec_line_break_inert (s : jsstring) : exec re_line_break (c :: s) = None.
Proof.
  destruct Hparts as (Hs & _). unfold exec, re_line_break.
  cbn [matches star_ends]. rewrite Hs.
  cbn [flat_map matches one app]. now rewrite inert_not_newline.
Qed.

Lemma exec_period_inert (s : jsstring) : exec re_period (c :: s) = None.
Proof.
  destruct Hparts as (Hs & _ & Hp & _). unfold exec, re_period.
  cbn [matches star_ends]. rewrite Hs.
  cbn [flat_map matches one app]. now rewrite Hp.
Qed.

Lemma exec_comma_inert (s : jsstring) : exec re_comma (c :: s) = None.
Proof.
  destruct Hparts as (Hs & _ & _ & Hc & _). unfold exec, re_comma.
  cbn [matches star_ends]. rewrite Hs.
  cbn [flat_map matches one app]. now rewrite Hc.
Qed.

Lemma cleanDescription_inert_head (s : jsstring) :
  exists s', cleanDescription (c :: s) = trim (c :: s').
Proof.
  unfold cleanDescription.
  rewrite replace_all_keep by apply exec_numbered_inert.
  rewrite replace_all_keep by apply exec_here_are_inert.
  rewrite replace_all_keep by apply exec_spaces_inert.
  rewrite replace_all_keep by apply exec_line_break_inert.
  rewrite replace_all_keep by apply exec_period_inert.
  rewrite replace_all_keep by apply exec_comma_inert.
  rewrite replace_all_keep by apply exec_spaces_inert.
  eauto.
Qed.

Lemma cleanDescription_inert_nonempty (s : jsstring) :
  cleanDescription (c :: s) <> [].
Proof.
  destruct (cleanDescription_inert_head s) as (s' & ->).
  apply trim_nonempty. simpl. unfold visible at 1.
  destruct Hparts as (-> & _). reflexivity.
Qed.

End InertHead.

(** The formatted description is empty exactly when the cleaned text is. *)
Lemma formatDescription_nonempty (d : jsstring) :
  formatDescription d <> [] <-> cleanDescription d <> [].
Proof.
  unfold formatDescription. destruct d as [|c d].
  - simpl. split; intros H; now contradiction H.
  - cbn [is_empty].
    set (cleaned := cleanDescription (c :: d)).
    set (two := join (str ". ") (filter truthy_str (map trim (slice0 2 (split_regex re_sentence_end cleaned))))).
    destruct (0 <? List.length two) eqn:Hlen.
    + split; intros _.
      * intros E. subst two. rewrite E in Hlen. discriminate.
      * destruct two; discriminate.
    + reflexivity.
Qed.

(** ** Plain sentences *)

Lemma plain_parts (c : ascii) :
  plain c = true ->
  is_space c = false /\ is_digit c = false /\ Ascii.eqb "." c = false /\
  Ascii.eqb "," c = false /\ Ascii.eqb "?" c = false /\ Ascii.eqb "!" c = false.
Proof.
  unfold plain. intros H.
  repeat (apply andb_true_iff in H as [H ?]).
  repeat split; now apply negb_true_iff.
Qed.

Lemma plain_visible (c : ascii) : plain c = true -> visible c = true.
Proof. intros H. apply plain_parts in H as (Hs & _). unfold visible. now rewrite Hs. Qed.

Lemma plain_quiet (c : ascii) : plain c = true -> quiet c = true.
Proof.
  intros H. apply plain_parts in H as (Hs & Hd & _ & Hc & _).
  unfold quiet. rewrite Hd, Hc.
  destruct (Ascii.eqb "010" c) eqn:E; [|reflexivity].
  apply Ascii.eqb_eq in E. subst. vm_compute in Hs. discriminate.
Qed.

(** Induction over a plain sentence, word character by word character. *)
Lemma fragment_induction (P : jsstring -> Prop) :
  (forall c, plain c = true -> P [c]) ->
  (forall c a, plain c = true -> fragment a = true -> P a -> P (c :: " "%char :: a)) ->
  (forall c a, plain c = true -> fragment a = true -> P a -> P (c :: a)) ->
  forall a, fragment a = true -> P a.
Proof.
  intros Hlast Hspace Hchar a.
  assert (forall n a, List.length a <= n -> fragment a = true -> P a) as Hn.
  { clear a. induction n as [|n IH]; intros a Hlen Ha.
    - destruct a; [discriminate | simpl in Hlen; exfalso; lia].
    - destruct a as [|c a]; [discriminate|].
      cbn [fragment] in Ha. apply andb_true_iff in Ha as [Hc Ha].
      destruct a as [|d a]; [now apply Hlast|].
      destruct (Ascii.eqb d " ") eqn:Hd.
      + apply Ascii.eqb_eq in Hd. subst d.
        apply Hspace; trivial. apply IH; trivial. simpl in Hlen. lia.
      + apply Hchar; trivial. apply IH; trivial. simpl in Hlen |- *. lia. }
  now apply (Hn (List.length a)).
Qed.

Lemma fragment_head (a : jsstring) :
  fragment a = true -> exists c a', a = c :: a' /\ plain c = true.
Proof.
  destruct a as [|c a]; [discriminate|]. cbn [fragment].
  intros H. apply andb_true_iff in H as [Hc _]. eauto.
Qed.

Lemma fragment_last (a : jsstring) :
  fragment a = true -> exists a' c, a = a' ++ [c] /\ plain c = true.
Proof.
  intros H. pattern a. apply fragment_induction; trivial; clear a H.
  - intros c Hc. now exists [], c.
  - intros c a Hc _ (a' & d & -> & Hd). now exists (c :: " "%char :: a'), d.
  - intros c a Hc _ (a' & d & -> & Hd). now exists (c :: a'), d.
Qed.

Lemma fragment_quiet (a : jsstring) : fragment a = true -> forallb quiet a = true.
Proof.
  intros H. pattern a. apply fragment_induction; trivial; clear a H.
  - intros c Hc. simpl. now rewrite plain_quiet.
  - intros c a Hc _ IH. simpl. rewrite plain_quiet by trivial. exact IH.
  - intros c a Hc _ IH. simpl. rewrite plain_quiet by trivial. exact IH.
Qed.

Lemma fragment_single_spaced (a rest : jsstring) :
  fragment a = true -> single_spaced rest = true -> starts_visible rest = true ->
  single_spaced (a ++ rest) = true.
Proof.
  intros H Hrest Hvis. pattern a. apply fragment_induction; trivial; clear a H.
  - intros c Hc. cbn [app single_spaced].
    apply plain_parts in Hc as (-> & _). exact Hrest.
  - intros c a Hc Ha IH. cbn [app single_spaced].
    apply plain_parts in Hc as (-> & _).
    change (is_space " ") with true. cbn [andb Ascii.eqb].
    rewrite IH. destruct (fragment_head a Ha) as (d & a' & -> & Hd).
    cbn [app]. apply plain_parts in Hd as (-> & _). reflexivity.
  - intros c a Hc _ IH. cbn [app single_spaced].
    apply plain_parts in Hc as (-> & _). exact IH.
Qed.

Lemma fragment_skip (a rest : jsstring) :
  fragment a = true -> skip_while is_space (a ++ rest) = a ++ rest.
Proof.
  intros H. destruct (fragment_head a H) as (c & a' & -> & Hc).
  cbn [app skip_while]. now apply plain_parts in Hc as (-> & _).
Qed.

(** ** Patterns that do not apply to quiet text *)

Lemma flat_map_nil (A B : Type) (f : A -> list B) (l : list A) :
  (forall x, In x l -> f x = []) -> flat_map f l = [].
Proof.
  induction l as [|x l IH]; intros H; [reflexivity|]. simpl.
  rewrite (H x) by now left. apply IH. intros y Hy. apply H. now right.
Qed.

Lemma replace_all_unchanged (r : regex) (rep : jsstring) (P : ascii -> bool) :
  (forall s, forallb P s = true -> exec r s = None) ->
  forall s, forallb P s = true -> replace_all r rep s = s.
Proof.
  intros Hexec s. induction s as [|c s IH]; intros Hs.
  - now apply replace_all_nil, Hexec.
  - rewrite replace_all_keep by now apply Hexec.
    simpl in Hs. apply andb_true_iff in Hs as [_ Hs]. now rewrite IH.
Qed.

Lemma quiet_parts (c : ascii) :
  quiet c = true ->
  is_digit c = false /\ Ascii.eqb "," c = false /\ Ascii.eqb "010" c = false.
Proof.
  unfold quiet. intros H.
  repeat (apply andb_true_iff in H as [H ?]).
  repeat split; now apply negb_true_iff.
Qed.

Lemma matches_digits_quiet (k : regex) (s : jsstring) :
  forallb quiet s = true -> matches (Seq (Plus is_digit) k) s = [].
Proof.
  destruct s as [|c s]; [reflexivity|]. simpl forallb. intros H.
  apply andb_true_iff in H as [Hc _]. apply quiet_parts in Hc as (Hd & _).
  cbn [matches one]. now rewrite Hd.
Qed.

Lemma exec_numbered_quiet (s : jsstring) :
  forallb quiet s = true -> exec re_numbered s = None.
Proof.
  intros H. unfold exec, re_numbered. now rewrite matches_digits_quiet.
Qed.

Lemma matches_lit_i_quiet (l : string) (k : regex) :
  (forall s, forallb quiet s = true -> matches k s = []) ->
  forall s, forallb quiet s = true -> matches (lit_i l k) s = [].
Proof.
  intros Hk. unfold lit_i. induction l as [|c l IH]; intros s Hs; [now apply Hk|].
  cbn [list_ascii_of_string fold_right matches].
  destruct s as [|a s]; [reflexivity|].
  simpl in Hs. apply andb_true_iff in Hs as [_ Hs].
  cbn [one]. destruct (Ascii.eqb (canonicalize a) (canonicalize c)); [|reflexivity].
  cbn [flat_map]. rewrite IH by assumption. reflexivity.
Qed.

Lemma exec_here_are_quiet (s : jsstring) :
  forallb quiet s = true -> exec re_here_are s = None.
Proof.
  intros H. unfold exec, re_here_are.
  rewrite matches_lit_i_quiet; trivial.
  intros t Ht. now apply matches_digits_quiet.
Qed.

(** [\s*x\s*] needs an [x]. *)
Lemma exec_around_absent (x : ascii) (s : jsstring) :
  forallb (fun c => negb (Ascii.eqb x c)) s = true ->
  exec (Seq (Star is_space) (Seq (Chr x) (Star is_space))) s = None.
Proof.
  intros H. unfold exec. cbn [matches].
  rewrite flat_map_nil; [reflexivity|].
  intros t Ht. apply star_ends_suffix in Ht as (m & ->).
  rewrite forallb_app in H. apply andb_true_iff in H as [_ H].
  destruct t as [|c t]; [reflexivity|].
  cbn [forallb] in H. apply andb_true_iff in H as [Hc _]. apply negb_true_iff in Hc.
  cbn [one]. now rewrite Hc.
Qed.

Lemma quiet_no_comma (s : jsstring) :
  forallb quiet s = true -> forallb (fun c => negb (Ascii.eqb "," c)) s = true.
Proof.
  induction s as [|c s IH]; [reflexivity|]. cbn [forallb]. intros H.
  apply andb_true_iff in H as [Hc Hs]. apply quiet_parts in Hc as (_ & -> & _).
  now apply IH.
Qed.

Lemma quiet_no_newline (s : jsstring) :
  forallb quiet s = true -> forallb (fun c => negb (Ascii.eqb "010" c)) s = true.
Proof.
  induction s as [|c s IH]; [reflexivity|]. cbn [forallb]. intros H.
  apply andb_true_iff in H as [Hc Hs]. apply quiet_parts in Hc as (_ & _ & ->).
  now apply IH.
Qed.

Section QuietText.

Variable s : jsstring.
Hypothesis Hquiet : forallb quiet s = true.

Lemma numbered_quiet : replace_all re_numbered [] s = s.
Proof. apply (replace_all_unchanged _ _ quiet exec_numbered_quiet), Hquiet. Qed.

Lemma here_are_quiet (rep : jsstring) : replace_all re_here_are rep s = s.
Proof. apply (replace_all_unchanged _ _ quiet exec_here_are_quiet), Hquiet. Qed.

Lemma line_break_quiet (rep : jsstring) : replace_all re_line_break rep s = s.
Proof.
  apply (replace_all_unchanged _ _ quiet); trivial.
  intros t Ht. now apply exec_around_absent, quiet_no_newline.
Qed.

Lemma comma_quiet (rep : jsstring) : replace_all re_comma rep s = s.
Proof.
  apply (replace_all_unchanged _ _ quiet); trivial.
  intros t Ht. now apply exec_around_absent, quiet_no_comma.
Qed.

End QuietText.

(** ** Whitespace that is already normal *)

Lemma skip_starts_visible (s : jsstring) :
  starts_visible s = true -> skip_while is_space s = s.
Proof.
  destruct s as [|c s]; [reflexivity|]. unfold starts_visible, visible. simpl.
  now destruct (is_space c).
Qed.

Lemma replace_all_match_one (r : regex) (rep : jsstring) (c : ascii) (t : jsstring) :
  exec r (c :: t) = Some t ->
  replace_all r rep (c :: t) = rep ++ replace_all r rep t.
Proof. exact (@replace_all_match r rep c [] t). Qed.

Lemma spaces_single_spaced (s : jsstring) :
  single_spaced s = true -> replace_all re_spaces (str " ") s = s.
Proof.
  unfold re_spaces.
  induction s as [|c s IH]; intros H; [reflexivity|].
  cbn [single_spaced] in H. apply andb_true_iff in H as [Hc Hs].
  destruct (is_space c) eqn:Hsp.
  - apply andb_true_iff in Hc as [Hc Hnext]. apply Ascii.eqb_eq in Hc. subst c.
    assert (skip_while is_space s = s) as Hskip.
    { apply skip_starts_visible. now destruct s. }
    rewrite replace_all_match_one.
    + now rewrite IH.
    + rewrite exec_Plus_hit by reflexivity. now rewrite Hskip.
  - rewrite replace_all_keep by now apply exec_Plus_miss.
    now rewrite IH.
Qed.

(** ** Periods *)

Lemma exec_period_plain (c : ascii) (s : jsstring) :
  plain c = true -> exec re_period (c :: s) = None.
Proof.
  intros H. apply plain_parts in H as (Hs & _ & Hp & _).
  unfold exec, re_period. cbn [matches star_ends]. rewrite Hs.
  cbn [flat_map matches one app]. now rewrite Hp.
Qed.

Lemma exec_period_space (c : ascii) (s : jsstring) :
  plain c = true -> exec re_period (" "%char :: c :: s) = None.
Proof.
  intros H. apply plain_parts in H as (Hs & _ & Hp & _).
  unfold exec, re_period. cbn [matches star_ends].
  change (is_space " ") with true. cbv iota. rewrite Hs.
  cbn [flat_map matches one app]. rewrite Hp.
  change (Ascii.eqb "." " ") with false. reflexivity.
Qed.

Lemma exec_period_dot (s : jsstring) :
  exec re_period ("."%char :: s) = Some (skip_while is_space s).
Proof.
  unfold exec, re_period. cbn [matches star_ends].
  change (is_space ".") with false. cbv iota.
  cbn [flat_map matches one]. change (Ascii.eqb "." ".") with true. cbv iota.
  cbn [flat_map]. destruct (star_ends_head is_space s) as (others & ->).
  reflexivity.
Qed.

(** A period and the whitespace after it become a period and a space. *)
Lemma period_at_dot (rep s : jsstring) :
  replace_all re_period rep ("."%char :: s) =
  rep ++ replace_all re_period rep (skip_while is_space s).
Proof.
  destruct (skip_while_suffix is_space s) as (m & Hm & _).
  pose proof (exec_period_dot s) as Hexec.
  rewrite Hm at 1. rewrite Hm in Hexec at 1.
  now apply replace_all_match.
Qed.

(** Inside a plain sentence nothing is replaced. *)
Lemma period_in_fragment (rep a rest : jsstring) :
  fragment a = true ->
  replace_all re_period rep (a ++ rest) = a ++ replace_all re_period rep rest.
Proof.
  intros H. pattern a. apply fragment_induction; trivial; clear a H.
  - intros c Hc. cbn [app]. now rewrite replace_all_keep by now apply exec_period_plain.
  - intros c a Hc Ha IH. cbn [app].
    rewrite replace_all_keep by now apply exec_period_plain.
    destruct (fragment_head a Ha) as (d & a' & E & Hd).
    rewrite replace_all_keep; [now rewrite IH|].
    rewrite E. now apply exec_period_space.
  - intros c a Hc _ IH. cbn [app].
    rewrite replace_all_keep by now apply exec_period_plain. now rewrite IH.
Qed.

Lemma period_at_end (rep : jsstring) : replace_all re_period rep [] = [].
Proof. reflexivity. Qed.

(** ** Trimming text that has no whitespace at its ends *)

Lemma trimStart_starts_visible (s : jsstring) :
  starts_visible s = true -> trimStart s = s.
Proof. rewrite trimStart_is_skip. apply skip_starts_visible. Qed.

Lemma trimEnd_visible_last (s : jsstring) (c : ascii) :
  visible c = true -> trimEnd (s ++ [c]) = s ++ [c].
Proof.
  intros H. unfold trimEnd. rewrite rev_app_distr. cbn [rev app].
  rewrite trimStart_starts_visible by exact H.
  change (c :: rev s) with ([c] ++ rev s). rewrite rev_app_distr, rev_involutive.
  reflexivity.
Qed.

Lemma trimEnd_space_last (s : jsstring) :
  trimEnd (s ++ [" "%char]) = trimEnd s.
Proof.
  unfold trimEnd. rewrite rev_app_distr. reflexivity.
Qed.

Lemma trim_fragment (a : jsstring) : fragment a = true -> trim a = a.
Proof.
  intros H. unfold trim.
  destruct (fragment_head a H) as (c & a' & E & Hc).
  rewrite trimStart_starts_visible by (rewrite E; now apply plain_visible).
  destruct (fragment_last a H) as (a0 & d & -> & Hd).
  now apply trimEnd_visible_last, plain_visible.
Qed.

(** ** Sentence ends *)

Lemma exec_sentence_end_other (c : ascii) (s : jsstring) :
  Ascii.eqb "." c = false -> Ascii.eqb "?" c = false -> Ascii.eqb "!" c = false ->
  exec re_sentence_end (c :: s) = None.
Proof.
  intros H1 H2 H3. unfold exec, re_sentence_end.
  cbn [matches one]. now rewrite H1, H2, H3.
Qed.

Lemma exec_sentence_end_dot (s : jsstring) :
  exec re_sentence_end ("."%char :: s) = exec (Plus is_space) s.
Proof.
  unfold exec, re_sentence_end. cbn [matches one].
  change (Ascii.eqb "." ".") with true. change (Ascii.eqb "?" ".") with false.
  change (Ascii.eqb "!" ".") with false. cbv iota. cbn [app flat_map].
  now rewrite app_nil_r.
Qed.

Lemma split_in_fragment (fresh : bool) (a rest : jsstring) :
  fragment a = true ->
  split_from re_sentence_end 0 fresh (a ++ rest) =
  prepend a (split_from re_sentence_end 0 false rest).
Proof.
  intros H. revert fresh. pattern a. apply fragment_induction; trivial; clear a H.
  - intros c Hc fresh. cbn [app]. apply plain_parts in Hc as (_ & _ & H1 & _ & H2 & H3).
    rewrite split_from_keep by now apply exec_sentence_end_other.
    now destruct (split_from re_sentence_end 0 false rest).
  - intros c a Hc Ha IH fresh. cbn [app].
    apply plain_parts in Hc as (_ & _ & H1 & _ & H2 & H3).
    rewrite split_from_keep by now apply exec_sentence_end_other.
    rewrite split_from_keep by now apply exec_sentence_end_other.
    rewrite IH. now destruct (split_from re_sentence_end 0 false rest).
  - intros c a Hc _ IH fresh. cbn [app].
    apply plain_parts in Hc as (_ & _ & H1 & _ & H2 & H3).
    rewrite split_from_keep by now apply exec_sentence_end_other.
    rewrite IH. now destruct (split_from re_sentence_end 0 false rest).
Qed.

(** A period, a space and a visible character: the sentence ends here. *)
Lemma split_at_dot_space (fresh : bool) (s : jsstring) :
  starts_visible s = true ->
  split_from re_sentence_end 0 fresh ("."%char :: " "%char :: s) =
  [] :: split_from re_sentence_end 0 true s.
Proof.
  intros H.
  apply (@split_from_match re_sentence_end fresh "." [" "%char] s).
  cbn [app]. rewrite exec_sentence_end_dot. rewrite exec_Plus_hit by reflexivity.
  now rewrite skip_starts_visible.
Qed.

Lemma split_at_last_dot (fresh : bool) :
  split_from re_sentence_end 0 fresh ["."%char] = [["."%char]].
Proof. reflexivity. Qed.

(** ** Cleaning one or two plain sentences *)

Lemma single_spaced_dot_space (s : jsstring) :
  starts_visible s = true -> single_spaced s = true ->
  single_spaced (str ". " ++ s) = true.
Proof.
  intros Hv Hs. cbn [str list_ascii_of_string app single_spaced].
  change (is_space ".") with false. change (is_space " ") with true.
  cbv iota. rewrite Hs. destruct s as [|c s]; [reflexivity|].
  unfold starts_visible, visible in Hv. now rewrite Hv.
Qed.

Lemma starts_visible_fragment (a rest : jsstring) :
  fragment a = true -> starts_visible (a ++ rest) = true.
Proof.
  intros H. destruct (fragment_head a H) as (c & a' & -> & Hc).
  now apply plain_visible.
Qed.

Section Body.

Variable X : jsstring.
Hypothesis HX : body X.

Lemma body_quiet : forallb quiet X = true.
Proof.
  destruct HX as [a Ha | a b Ha Hb].
  - now apply fragment_quiet.
  - rewrite !forallb_app, (fragment_quiet a Ha), (fragment_quiet b Hb). reflexivity.
Qed.

Lemma body_single_spaced (rest : jsstring) :
  single_spaced rest = true -> starts_visible rest = true ->
  single_spaced (X ++ rest) = true.
Proof.
  intros Hs Hv. destruct HX as [a Ha | a b Ha Hb].
  - now apply fragment_single_spaced.
  - rewrite <- !app_assoc. apply fragment_single_spaced; trivial.
    apply single_spaced_dot_space.
    + now apply starts_visible_fragment.
    + now apply fragment_single_spaced.
Qed.

Lemma body_starts_visible (rest : jsstring) : starts_visible (X ++ rest) = true.
Proof.
  destruct HX as [a Ha | a b Ha Hb].
  - now apply starts_visible_fragment.
  - rewrite <- app_assoc. now apply starts_visible_fragment.
Qed.

Lemma body_period (rest : jsstring) :
  replace_all re_period (str ". ") (X ++ "."%char :: rest) =
  X ++ str ". " ++ replace_all re_period (str ". ") (skip_while is_space rest).
Proof.
  destruct HX as [a Ha | a b Ha Hb].
  - rewrite period_in_fragment by assumption. now rewrite period_at_dot.
  - rewrite <- !app_assoc. rewrite period_in_fragment by assumption.
    cbn [str list_ascii_of_string app]. rewrite period_at_dot.
    cbn [skip_while]. change (is_space " ") with true. cbv iota.
    rewrite fragment_skip by assumption.
    rewrite period_in_fragment by assumption. now rewrite period_at_dot.
Qed.

(** [X.] is clean already. *)
Lemma clean_body_dot : cleanDescription (X ++ str ".") = X ++ str ".".
Proof.
  assert (forallb quiet (X ++ str ".") = true) as Hq
    by (rewrite forallb_app, body_quiet; reflexivity).
  assert (single_spaced (X ++ str ".") = true) as Hs
    by (now apply body_single_spaced).
  assert (forallb quiet (X ++ str ". ") = true) as Hq'
    by (rewrite forallb_app, body_quiet; reflexivity).
  assert (single_spaced (X ++ str ". ") = true) as Hs'
    by (now apply body_single_spaced).
  unfold cleanDescription.
  rewrite (@numbered_quiet _ Hq), (@here_are_quiet _ Hq), (@spaces_single_spaced _ Hs),
    (@line_break_quiet _ Hq).
  change (str ".") with ("."%char :: @nil ascii). rewrite body_period.
  cbn [skip_while]. rewrite period_at_end, app_nil_r.
  rewrite (@comma_quiet _ Hq'), (@spaces_single_spaced _ Hs').
  unfold trim. rewrite trimStart_starts_visible by apply body_starts_visible.
  change (str ". ") with (["."%char] ++ [" "%char]).
  rewrite app_assoc, trimEnd_space_last. now apply trimEnd_visible_last.
Qed.


End Body.

(** ** Formatting one or two plain sentences *)

Lemma split_regex_nonempty (r : regex) (c : ascii) (s : jsstring) :
  split_regex r (c :: s) = split_from r 0 true (c :: s).
Proof. reflexivity. Qed.

Lemma fragment_truthy (a rest : jsstring) :
  fragment a = true -> truthy_str (a ++ rest) = true.
Proof. intros H. destruct (fragment_head a H) as (c & a' & -> & _). reflexivity. Qed.

Lemma fragment_alone_truthy (a : jsstring) : fragment a = true -> truthy_str a = true.
Proof. intros H. destruct (fragment_head a H) as (c & a' & -> & _). reflexivity. Qed.

Lemma fragment_is_empty (a rest : jsstring) :
  fragment a = true -> is_empty (a ++ rest) = false.
Proof. intros H. destruct (fragment_head a H) as (c & a' & -> & _). reflexivity. Qed.

Lemma fragment_length (a rest : jsstring) :
  fragment a = true -> (0 <? List.length (a ++ rest)) = true.
Proof. intros H. destruct (fragment_head a H) as (c & a' & -> & _). reflexivity. Qed.

Lemma trim_fragment_dot (a : jsstring) :
  fragment a = true -> trim (a ++ str ".") = a ++ str ".".
Proof.
  intros H. unfold trim.
  rewrite trimStart_starts_visible by now apply starts_visible_fragment.
  now apply trimEnd_visible_last.
Qed.

Lemma split_fragment (a rest : jsstring) :
  fragment a = true ->
  split_regex re_sentence_end (a ++ rest) =
  prepend a (split_from re_sentence_end 0 false rest).
Proof.
  intros H. destruct (fragment_head a H) as (c & a' & E & _).
  rewrite E at 1. cbn [app]. rewrite split_regex_nonempty.
  change (c :: a' ++ rest) with ((c :: a') ++ rest). rewrite <- E.
  now apply split_in_fragment.
Qed.

Section Sentences.

Variables a b : jsstring.
Hypothesis Ha : fragment a = true.
Hypothesis Hb : fragment b = true.



Lemma format_two :
  formatDescription (a ++ str ". " ++ b ++ str ".") = a ++ str ". " ++ b ++ str "..".
Proof.
  unfold formatDescription. rewrite fragment_is_empty by assumption.
  replace (a ++ str ". " ++ b ++ str ".") with ((a ++ str ". " ++ b) ++ str ".")
    by now rewrite <- !app_assoc.
  rewrite (clean_body_dot (body_two a b Ha Hb)).
  rewrite <- !app_assoc.
  rewrite split_fragment by assumption.
  change (str ". " ++ b ++ str ".") with ("."%char :: " "%char :: b ++ str ".").
  rewrite split_at_dot_space by now apply starts_visible_fragment.
  rewrite split_in_fragment by assumption.
  rewrite split_at_last_dot.
  cbn [prepend slice0 firstn map]. rewrite app_nil_r.
  rewrite trim_fragment, trim_fragment_dot by assumption.
  cbn [filter]. rewrite fragment_alone_truthy, fragment_truthy by assumption.
  cbn [join].
  rewrite fragment_length by assumption.
  now rewrite <- !app_assoc.
Qed.


End Sentences.





(** ** The retry policy *)

Section RetryFacts.

Variable T : Type.
Variable fn : M T.

Lemma retry_loop_returned (maxRetries baseDelay : Z) (k : nat) (i : Z) (w w' : World) (x : T) :
  fn w = (Returned x, w') ->
  retry_loop fn maxRetries baseDelay (S k) i w = (Returned x, w').
Proof.
  intros H. simpl. unfold try_catch. now rewrite H.
Qed.

Lemma retry_loop_last (maxRetries baseDelay : Z) (k : nat) (w w' : World) (e : exn) :
  fn w = (Thrown e, w') ->
  retry_loop fn maxRetries baseDelay (S k) (maxRetries - 1) w = (Thrown e, w').
Proof.
  intros H. simpl. unfold try_catch. rewrite H.
  now rewrite Z.eqb_refl.
Qed.

Lemma retry_loop_again (maxRetries baseDelay : Z) (k : nat) (i : Z) (w w' : World) (e : exn) :
  fn w = (Thrown e, w') ->
  i <> (maxRetries - 1)%Z ->
  retry_loop fn maxRetries baseDelay (S k) i w =
  retry_loop fn maxRetries baseDelay k (i + 1) (slept (baseDelay * 2 ^ i) w').
Proof.
  intros H Hi. simpl. unfold try_catch. rewrite H.
  apply Z.eqb_neq in Hi. rewrite Hi. reflexivity.
Qed.

End RetryFacts.

(** C9: with [maxRetries = 0] the loop body never runs: whatever the
    operation is, it is not invoked (the world is left as it was) and the
    call fails with the generic [Error("Max retries reached")]. *)
Theorem retryWithBackoff_zero_retries (T : Type) (fn : M T) (baseDelay : Z) (w : World) :
  retryWithBackoff fn 0 baseDelay w = (Thrown (Error (str "Max retries reached")), w).
Proof.
  unfold retryWithBackoff. simpl Z.to_nat. reflexivity.
Qed.

(** C3: with [maxRetries = 3] and [baseDelay = 1000], an operation that fails
    whenever it is invoked is invoked three times, the timer being awaited for
    1000 ms after the first failure and for 2000 ms after the second; the call
    ends in the world the third invocation left, with the very error the third
    invocation failed with. *)
Theorem retryWithBackoff_always_failing (T : Type) (fn : M T) (w : World) :
  (forall v, exists e v', fn v = (Thrown e, v')) ->
  exists e1 w1 e2 w2 e3 w3,
    fn w = (Thrown e1, w1) /\
    fn (slept 1000 w1) = (Thrown e2, w2) /\
    fn (slept 2000 w2) = (Thrown e3, w3) /\
    retryWithBackoff fn 3 1000 w = (Thrown e3, w3).
Proof.
  intros Hfail.
  destruct (Hfail w) as (e1 & w1 & H1).
  destruct (Hfail (slept 1000 w1)) as (e2 & w2 & H2).
  destruct (Hfail (slept 2000 w2)) as (e3 & w3 & H3).
  exists e1, w1, e2, w2, e3, w3. repeat split; trivial.
  unfold retryWithBackoff. change (Z.to_nat 3) with 3%nat.
  rewrite (@retry_loop_again _ fn 3 1000 2 0 _ _ _ H1) by discriminate.
  change (slept (1000 * 2 ^ 0) w1) with (slept 1000 w1).
  rewrite (@retry_loop_again _ fn 3 1000 1 (0 + 1) _ _ _ H2) by discriminate.
  change (slept (1000 * 2 ^ (0 + 1)) w2) with (slept 2000 w2).
  exact (@retry_loop_last _ fn 3 1000 0 _ _ _ H3).
Qed.

Lemma retryWithBackoff_always_failing_witness :
  let fn := textGeneration Examples.failing_remote (metadata_request (str "prompt")) in
  exists e1 w1 e2 w2 e3 w3,
    fn Examples.w0 = (Thrown e1, w1) /\
    fn (slept 1000 w1) = (Thrown e2, w2) /\
    fn (slept 2000 w2) = (Thrown e3, w3) /\
    retryWithBackoff fn 3 1000 Examples.w0 = (Thrown e3, w3).
Proof.
  apply (@retryWithBackoff_always_failing response
           (textGeneration Examples.failing_remote (metadata_request (str "prompt")))
           Examples.w0).
  intros v. eexists. eexists. reflexivity.
Defined.

(** ** The retried remote call *)

Section RemoteFacts.

Variable remote : nat -> request -> reply.
Variable req : request.

Lemma textGeneration_generated (w : World) (text : jsstring) :
  remote (requests w) req = Generated text ->
  textGeneration remote req w = (Returned {| generated_text := text |}, requested req w).
Proof.
  intros H. unfold textGeneration. now rewrite H.
Qed.

Lemma textGeneration_failed (w : World) (e : exn) :
  remote (requests w) req = Failed e ->
  textGeneration remote req w = (Thrown e, requested req w).
Proof.
  intros H. unfold textGeneration. now rewrite H.
Qed.

(** Three failures in a row exhaust the policy: the third error comes out. *)
Lemma call_fails_thrice (w : World) (e1 e2 e3 : exn) :
  fails_thrice remote req (requests w) e1 e2 e3 ->
  retried_call remote req w = (Thrown e3, after_attempts req 2 w).
Proof.
  intros (H1 & H2 & H3). unfold retried_call, retryWithBackoff, default_maxRetries, default_baseDelay.
  change (Z.to_nat 3) with 3%nat.
  rewrite (@retry_loop_again _ _ 3 1000 2 0 _ _ _ (textGeneration_failed w H1))
    by discriminate.
  rewrite (@retry_loop_again _ _ 3 1000 1 (0 + 1) _ (requested req (slept 1000 (requested req w))) e2)
    by (discriminate || now apply textGeneration_failed).
  apply (@retry_loop_last _ _ 3 1000 0).
  now apply textGeneration_failed.
Qed.

(** The first answer within three requests is what the call returns. *)
Lemma call_answered (w : World) (k : nat) (text : jsstring) :
  answered_at remote req (requests w) k text ->
  retried_call remote req w =
  (Returned {| generated_text := text |}, after_attempts req k w).
Proof.
  intros (Hk & Hans & Hbefore). unfold retried_call, retryWithBackoff, default_maxRetries, default_baseDelay.
  change (Z.to_nat 3) with 3%nat.
  destruct k as [|[|[|k]]]; try lia.
  - rewrite Nat.add_0_r in Hans.
    now apply retry_loop_returned, textGeneration_generated.
  - destruct (Hbefore 0%nat) as [e1 H1]; [lia|]. rewrite Nat.add_0_r in H1.
    rewrite (@retry_loop_again _ _ 3 1000 2 0 _ _ _ (textGeneration_failed w H1))
      by discriminate.
    apply retry_loop_returned, textGeneration_generated.
    now rewrite Nat.add_1_r in Hans.
  - destruct (Hbefore 0%nat) as [e1 H1]; [lia|]. rewrite Nat.add_0_r in H1.
    destruct (Hbefore 1%nat) as [e2 H2]; [lia|]. rewrite Nat.add_1_r in H2.
    rewrite (@retry_loop_again _ _ 3 1000 2 0 _ _ _ (textGeneration_failed w H1))
      by discriminate.
    rewrite (@retry_loop_again _ _ 3 1000 1 (0 + 1) _ (requested req (slept 1000 (requested req w))) e2)
      by (discriminate || now apply textGeneration_failed).
    apply retry_loop_returned, textGeneration_generated.
    replace (requests w + 2)%nat with (S (S (requests w))) in Hans by lia.
    exact Hans.
Qed.

(** Whatever the client does, the call either returns an answer or throws. *)
Lemma call_cases (w : World) :
  (exists k text, answered_at remote req (requests w) k text) \/
  (exists e1 e2 e3, fails_thrice remote req (requests w) e1 e2 e3).
Proof.
  destruct (remote (requests w) req) as [t0|e1] eqn:H0.
  { left. exists 0%nat, t0. repeat split; [lia | now rewrite Nat.add_0_r | intros; lia]. }
  destruct (remote (S (requests w)) req) as [t1|e2] eqn:H1.
  { left. exists 1%nat, t1. repeat split; [lia | now rewrite Nat.add_1_r |].
    intros j Hj. assert (j = 0)%nat by lia. subst. rewrite Nat.add_0_r. eauto. }
  destruct (remote (S (S (requests w))) req) as [t2|e3] eqn:H2.
  { left. exists 2%nat, t2. repeat split; [lia | |].
    - now replace (requests w + 2)%nat with (S (S (requests w))) by lia.
    - intros j Hj. assert (j = 0 \/ j = 1)%nat as [-> | ->] by lia.
      + rewrite Nat.add_0_r. eauto.
      + rewrite Nat.add_1_r. eauto. }
  right. exists e1, e2, e3. now repeat split.
Qed.

End RemoteFacts.

(** A run against a client that is down: three requests, the two sleeps
    between them, 3000 ms on the clock, the third rejection coming out. *)
Example retried_call_trace_example :
  let req := analysis_request (str "prompt") in
  retried_call Examples.failing_remote req Examples.w0 =
  (Thrown (Rejection (str "third")),
   {| clock := 1700000003000;
      requests := 3;
      trace := [Requested req; Slept 1000; Requested req; Slept 2000; Requested req] |}).
Proof. reflexivity. Qed.

(** ** The two entry points, case by case *)

(** A field that must be a string for the goal to be possible. *)
Ltac string_field f s :=
  destruct f as [[| ? | ? | s | ? | ?]|]; try discriminate.

Section PipelineFacts.

Variable JSON_parse : jsstring -> option value.
Variable remote : nat -> request -> reply.

Lemma truthy_string (s : jsstring) : truthy (Some (VString s)) = truthy_str s.
Proof. reflexivity. Qed.

Lemma truthy_str_nonempty (s : jsstring) : truthy_str s = true <-> s <> [].
Proof.
  destruct s; unfold truthy_str; simpl; split; intros H;
    try discriminate; try reflexivity; now try (exfalso; apply H).
Qed.

(** A property read off a parsed answer is a non-empty string, or falsy, or
    a truthy value without string methods. *)
Lemma field_cases (v : option value) :
  (exists s, v = Some (VString s) /\ s <> []) \/
  truthy v = false \/
  (truthy v = true /\ call_trim v = throw TypeError /\
   formatDescription_any v = throw TypeError /\
   forall s, v <> Some (VString s)).
Proof.
  destruct v as [[| b | x | s | items | props]|]; try (right; left; reflexivity).
  - destruct b; [right; right | right; left; reflexivity].
    repeat split; trivial; discriminate.
  - destruct (truthy (Some (VNumber x))) eqn:H; [right; right | now right; left].
    repeat split; trivial; try discriminate.
    unfold formatDescription_any. now rewrite H.
  - destruct s as [|c s]; [right; left; reflexivity|].
    left. eexists. split; [reflexivity | discriminate].
  - right; right. repeat split; trivial; discriminate.
  - right; right. repeat split; trivial; discriminate.
Qed.

(** The inner [try] block never touches the world, and returns a record
    exactly when the parsed answer has its three fields valid. *)
Lemma parse_and_validate_cases (url0 : jsstring) (r : response) (w : World) :
  match JSON_parse (generated_text r) with
  | Some v =>
      match valid_fields v with
      | Some (t, d, k) =>
          parse_and_validate JSON_parse url0 r w =
          (Returned {| id := clock w; url := url0; title := trim t;
                       description := formatDescription d; keywords := trim k |}, w)
      | None => exists e, parse_and_validate JSON_parse url0 r w = (Thrown e, w)
      end
  | None => parse_and_validate JSON_parse url0 r w = (Thrown SyntaxError, w)
  end.
Proof.
  unfold parse_and_validate.
  destruct (JSON_parse (generated_text r)) as [v|]; [|reflexivity].
  destruct v as [| b | x | s | items | props];
    try (simpl; eexists; reflexivity).
  unfold valid_fields, bind, get, ret.
  generalize (lookup props (str "title")) (lookup props (str "description"))
    (lookup props (str "keywords")).
  intros t d k.
  destruct (field_cases t) as [(s1 & -> & N1) | [F1 | (T1 & C1 & _ & S1)]];
  destruct (field_cases d) as [(s2 & -> & N2) | [F2 | (T2 & _ & D2 & S2)]];
  destruct (field_cases k) as [(s3 & -> & N3) | [F3 | (T3 & C3 & _ & S3)]];
  repeat match goal with
    | H : ?s <> [] |- _ => destruct s; [now contradiction H | clear H]
    | H : truthy ?v = _ |- _ => rewrite H
    | H : call_trim ?v = _ |- _ => rewrite H
    | H : formatDescription_any ?v = _ |- _ => rewrite H
    end;
  try reflexivity.
  all: repeat match goal with
    | H : forall s, ?v <> Some (VString s) |- _ =>
        destruct v as [[| ? | ? | ? | ? | ?]|];
        [ | | | exfalso; eapply H; reflexivity | | | ]; clear H
    | H : truthy ?v = false |- _ =>
        destruct v as [[| ? | ? | [|? ?] | ? | ?]|]; try discriminate H; clear H
    end.
  all: simpl; try (eexists; reflexivity).
Qed.

(** The outer [catch]: the remote call threw. *)
Lemma generate_outer (url0 content : jsstring) (w w1 : World) (e : exn) :
  metadata_call remote url0 content w = (Thrown e, w1) ->
  generateLLMMetadata JSON_parse remote url0 content w =
  (Returned (fallback_fields (clock w1) url0 content outer_opening outer_closing),
   logged "Error generating metadata with LLM:" e w1).
Proof.
  unfold metadata_call, retried_call, generateLLMMetadata. intros H.
  unfold try_catch at 1. unfold bind at 1. rewrite H. reflexivity.
Qed.

(** The inner [catch]: the call returned and the inner [try] threw. *)
Lemma generate_inner (url0 content : jsstring) (w w1 w2 : World) (r : response) (e : exn) :
  metadata_call remote url0 content w = (Returned r, w1) ->
  parse_and_validate JSON_parse url0 r w1 = (Thrown e, w2) ->
  generateLLMMetadata JSON_parse remote url0 content w =
  (Returned (fallback_fields (clock w2) url0 content inner_opening inner_closing),
   logged "Failed to parse or validate LLM response:" e w2).
Proof.
  unfold metadata_call, retried_call, generateLLMMetadata. intros H Hp.
  unfold try_catch at 1. unfold bind at 1. rewrite H.
  unfold try_catch. rewrite Hp. reflexivity.
Qed.

(** The success path. *)
Lemma generate_success (url0 content : jsstring) (w w1 w2 : World) (r : response)
  (pm : PageMetadata) :
  metadata_call remote url0 content w = (Returned r, w1) ->
  parse_and_validate JSON_parse url0 r w1 = (Returned pm, w2) ->
  generateLLMMetadata JSON_parse remote url0 content w = (Returned pm, w2).
Proof.
  unfold metadata_call, retried_call, generateLLMMetadata. intros H Hp.
  unfold try_catch at 1. unfold bind at 1. rewrite H.
  unfold try_catch. rewrite Hp. reflexivity.
Qed.

End PipelineFacts.

Section EntryPoints.

Variable JSON_parse : jsstring -> option value.
Variable remote : nat -> request -> reply.

Lemma parse_and_validate_returned (url0 : jsstring) (r : response) (w w' : World)
  (pm : PageMetadata) :
  parse_and_validate JSON_parse url0 r w = (Returned pm, w') ->
  w' = w /\
  exists v t d k,
    JSON_parse (generated_text r) = Some v /\ valid_fields v = Some (t, d, k) /\
    pm = {| id := clock w; url := url0; title := trim t;
            description := formatDescription d; keywords := trim k |}.
Proof.
  intros H. pose proof (parse_and_validate_cases JSON_parse url0 r w) as C.
  destruct (JSON_parse (generated_text r)) as [v|]; [|congruence].
  destruct (valid_fields v) as [[[t d] k]|] eqn:V.
  - rewrite C in H. inversion H; subst. split; trivial.
    exists v, t, d, k. auto.
  - destruct C as [e C]. congruence.
Qed.

Lemma parse_and_validate_world (url0 : jsstring) (r : response) (w w' : World)
  (o : outcome PageMetadata) :
  parse_and_validate JSON_parse url0 r w = (o, w') -> w' = w.
Proof.
  intros H. pose proof (parse_and_validate_cases JSON_parse url0 r w) as C.
  destruct (JSON_parse (generated_text r)) as [v|]; [|congruence].
  destruct (valid_fields v) as [[[t d] k]|]; [congruence|].
  destruct C as [e C]. congruence.
Qed.

Lemma generate_cases (url0 content : jsstring) (w : World) :
  exists pm w',
    generateLLMMetadata JSON_parse remote url0 content w = (Returned pm, w') /\
    ending JSON_parse remote url0 content w pm.
Proof.
  destruct (metadata_call remote url0 content w) as [[r|e] w1] eqn:H.
  - destruct (parse_and_validate JSON_parse url0 r w1) as [[pm|e] w2] eqn:Hp.
    + exists pm, w2. split; [eapply generate_success; eauto|].
      apply parse_and_validate_returned in Hp as (-> & v & t & d & k & Hv & Hf & ->).
      eapply Success; eauto.
    + pose proof (parse_and_validate_world _ _ _ Hp) as ->.
      eexists. eexists. split; [eapply generate_inner; eauto|].
      eapply Inner; eauto.
  - eexists. eexists. split; [eapply generate_outer; eauto|].
    eapply Outer; eauto.
Qed.

Lemma ending_url (url0 content : jsstring) (w : World) (pm : PageMetadata) :
  ending JSON_parse remote url0 content w pm -> url pm = url0.
Proof.
  intros [e w1 _ -> | r w1 e _ _ -> | r w1 v t d k _ _ _ ->]; reflexivity.
Qed.

End EntryPoints.

(** C2: [generateLLMMetadata] never signals failure: whatever the remote
    client does on each request and whatever [JSON.parse] makes of the text,
    the call returns a [PageMetadata]; when the retried remote call throws,
    and when parsing or validation throws, the record is the fallback one. *)
Theorem generateLLMMetadata_never_throws
  (JSON_parse : jsstring -> option value) (remote : nat -> request -> reply)
  (url0 content : jsstring) (w : World) :
  exists pm w',
    generateLLMMetadata JSON_parse remote url0 content w = (Returned pm, w') /\
    (forall e w1,
        metadata_call remote url0 content w = (Thrown e, w1) ->
        pm = fallback_fields (clock w1) url0 content outer_opening outer_closing) /\
    (forall r w1 e w2,
        metadata_call remote url0 content w = (Returned r, w1) ->
        parse_and_validate JSON_parse url0 r w1 = (Thrown e, w2) ->
        pm = fallback_fields (clock w2) url0 content inner_opening inner_closing).
Proof.
  destruct (metadata_call remote url0 content w) as [[r|e] w1] eqn:H.
  - destruct (parse_and_validate JSON_parse url0 r w1) as [[pm|e] w2] eqn:Hp.
    + exists pm, w2. split; [eapply generate_success; eauto|].
      split; [discriminate|].
      intros r' w1' e' w2' Hr. inversion Hr; subst. congruence.
    + eexists. eexists. split; [eapply generate_inner; eauto|].
      split; [discriminate|].
      intros r' w1' e' w2' Hr Hp'. inversion Hr; subst.
      rewrite Hp in Hp'. now inversion Hp'.
  - eexists. eexists. split; [eapply generate_outer; eauto|].
    split; [|discriminate].
    intros e' w1' He. now inversion He.
Qed.

(** C8: on every path (success, inner fallback, outer fallback) the [url]
    field of the returned record is the [url] argument, for every url,
    content, client behaviour and parser. *)
Theorem generateLLMMetadata_copies_url
  (JSON_parse : jsstring -> option value) (remote : nat -> request -> reply)
  (url0 content : jsstring) (w : World) :
  exists pm w',
    generateLLMMetadata JSON_parse remote url0 content w = (Returned pm, w') /\
    ending JSON_parse remote url0 content w pm /\
    url pm = url0.
Proof.
  destruct (generate_cases JSON_parse remote url0 content w) as (pm & w' & H & E).
  exists pm, w'. repeat split; trivial. eapply ending_url; eauto.
Qed.

(** ** The content analyzer *)

Lemma emit_nonempty (line : jsstring) : filter truthy_str [line] = emit line.
Proof. now destruct line. Qed.

(** Splitting on newlines and dropping the empty pieces is the one-pass
    reading of the non-empty lines. *)
Lemma split_lines_from (text line : jsstring) :
  filter truthy_str
    (match split_on "010"%char text with
     | piece :: rest => (line ++ piece) :: rest
     | [] => [line]
     end) = nonempty_lines line text.
Proof.
  revert line. induction text as [|c text IH]; intros line.
  - cbn [split_on nonempty_lines]. rewrite app_nil_r. apply emit_nonempty.
  - cbn [split_on nonempty_lines].
    destruct (Ascii.eqb c "010"%char).
    + rewrite app_nil_r. rewrite <- (IH []).
      change (line :: split_on "010"%char text)
        with ([line] ++ split_on "010"%char text).
      rewrite filter_app, emit_nonempty. f_equal.
      now destruct (split_on "010"%char text).
    + rewrite <- (IH (line ++ [c])).
      destruct (split_on "010"%char text) as [|piece rest].
      * reflexivity.
      * now rewrite <- app_assoc.
Qed.

Lemma split_lines (text : jsstring) :
  filter truthy_str (split_on "010"%char text) = nonempty_lines [] text.
Proof.
  rewrite <- split_lines_from. now destruct (split_on "010"%char text).
Qed.

Lemma nonempty_lines_blank (text : jsstring) :
  Forall (fun c => c = "010"%char) text -> nonempty_lines [] text = [].
Proof.
  induction 1 as [|c text -> _ IH]; [reflexivity|]. exact IH.
Qed.

Section AnalyzerFacts.

Variable remote : nat -> request -> reply.
Variable content : jsstring.
Variable w : World.

Local Abbreviation req := (analysis_request (analysis_prompt content)).

Lemma analyze_answered (k : nat) (text : jsstring) :
  answered_at remote req (requests w) k text ->
  analyzeContent remote content w =
  (Returned (nonempty_lines [] text), after_attempts req k w).
Proof.
  intros H. apply call_answered in H.
  unfold analyzeContent, try_catch, bind.
  unfold retried_call in H. rewrite H.
  unfold ret. simpl generated_text. now rewrite split_lines.
Qed.

Lemma analyze_failed (e1 e2 e3 : exn) :
  fails_thrice remote req (requests w) e1 e2 e3 ->
  analyzeContent remote content w =
  (Returned generic_suggestions,
   logged "Error analyzing content with LLM:" e3 (after_attempts req 2 w)).
Proof.
  intros H. apply call_fails_thrice in H.
  unfold analyzeContent, try_catch, bind.
  unfold retried_call in H. rewrite H. reflexivity.
Qed.

End AnalyzerFacts.

(** C7: [analyzeContent] never fails outward.  When the three requests of the
    retried call all fail it returns the fixed list of five suggestions, in
    their order; when one of them is answered it returns the non-empty lines
    of the generated text, in their order. *)
Theorem analyzeContent_never_fails
  (remote : nat -> request -> reply) (content : jsstring) (w : World) :
  (exists suggestions w', analyzeContent remote content w = (Returned suggestions, w')) /\
  (forall e1 e2 e3,
      fails_thrice remote (analysis_request (analysis_prompt content)) (requests w) e1 e2 e3 ->
      fst (analyzeContent remote content w) = Returned generic_suggestions) /\
  (forall k text,
      answered_at remote (analysis_request (analysis_prompt content)) (requests w) k text ->
      fst (analyzeContent remote content w) = Returned (nonempty_lines [] text)) /\
  generic_suggestions =
    [ str "Ensure your content includes relevant keywords.";
      str "Write a compelling meta description.";
      str "Use header tags (H1, H2, etc.) to structure your content.";
      str "Include internal and external links where appropriate.";
      str "Optimize your images with alt text and descriptive file names." ].
Proof.
  repeat split.
  - destruct (call_cases remote (analysis_request (analysis_prompt content)) w)
      as [(k & text & H) | (e1 & e2 & e3 & H)].
    + eexists. eexists. now apply analyze_answered with (k := k) (text := text).
    + eexists. eexists. now apply analyze_failed with (e1 := e1) (e2 := e2) (e3 := e3).
  - intros e1 e2 e3 H. erewrite analyze_failed; [reflexivity | eassumption].
  - intros k text H. erewrite analyze_answered; [reflexivity | eassumption].
Qed.

Lemma analyzeContent_never_fails_witness :
  fst (analyzeContent Examples.failing_remote (str "any") Examples.w0)
    = Returned generic_suggestions /\
  fst (analyzeContent (Examples.flaky (str "Add headings." ++ nl ++ nl ++ str "Add links."))
         (str "any") Examples.w0)
    = Returned [str "Add headings."; str "Add links."].
Proof.
  split.
  - destruct (analyzeContent_never_fails Examples.failing_remote (str "any") Examples.w0)
      as (_ & Hfail & _).
    apply Hfail with (e1 := Rejection (str "first")) (e2 := Rejection (str "second"))
                     (e3 := Rejection (str "third")).
    repeat split.
  - destruct (analyzeContent_never_fails
                (Examples.flaky (str "Add headings." ++ nl ++ nl ++ str "Add links."))
                (str "any") Examples.w0) as (_ & _ & Hanswer & _).
    rewrite (Hanswer 1%nat (str "Add headings." ++ nl ++ nl ++ str "Add links."));
      [reflexivity|].
    repeat split; [lia|].
    intros j Hj. assert (j = 0)%nat as -> by lia. eexists. reflexivity.
Defined.

(** C10: a successful answer can make [analyzeContent] return the empty list:
    when the generated text holds newlines only (or nothing), the result is
    the empty list, nothing is logged and the fallback list is not used. *)
Theorem analyzeContent_empty_answer
  (remote : nat -> request -> reply) (content : jsstring) (w : World)
  (k : nat) (text : jsstring) :
  answered_at remote (analysis_request (analysis_prompt content)) (requests w) k text ->
  Forall (fun c => c = "010"%char) text ->
  analyzeContent remote content w =
    (Returned [], after_attempts (analysis_request (analysis_prompt content)) k w) /\
  [] <> generic_suggestions.
Proof.
  intros H Hblank. split; [|discriminate].
  erewrite analyze_answered; [|eassumption]. now rewrite nonempty_lines_blank.
Qed.

Lemma analyzeContent_empty_answer_witness :
  analyzeContent (Examples.answering (nl ++ nl ++ nl)) (str "any") Examples.w0 =
    (Returned [],
     after_attempts (analysis_request (analysis_prompt (str "any"))) 0 Examples.w0) /\
  [] <> generic_suggestions.
Proof.
  apply (@analyzeContent_empty_answer (Examples.answering (nl ++ nl ++ nl)) (str "any")
           Examples.w0 0%nat (nl ++ nl ++ nl)).
  - repeat split; [lia|]. intros j Hj. lia.
  - repeat constructor.
Defined.

(** ** The inner fallback on a concrete page *)

Lemma valid_fields_truthy (v : value) (t d k : jsstring) :
  valid_fields v = Some (t, d, k) ->
  (has_truthy v "title" && has_truthy v "description" && has_truthy v "keywords")%bool = true.
Proof.
  destruct v as [| b | x | s | items | props]; try discriminate.
  unfold valid_fields, has_truthy.
  string_field (lookup props (str "title")) s1.
  string_field (lookup props (str "description")) s2.
  string_field (lookup props (str "keywords")) s3.
  rewrite !truthy_string.
  destruct (truthy_str s1 && truthy_str s2 && truthy_str s3)%bool; [reflexivity | discriminate].
Qed.

(** C5: when the remote call succeeds and the generated text is no valid
    JSON, or parses to a value without a truthy [title], [description] or
    [keywords], the page "Healthy eating matters. It helps you." gets the
    title "Healthy eating matters", the keywords [extractKeywords] finds in
    the content and a description that begins with "Discover comprehensive
    insights about healthy eating matters.". *)
Theorem generateLLMMetadata_malformed_answer
  (JSON_parse : jsstring -> option value) (remote : nat -> request -> reply)
  (w : World) (k : nat) (text : jsstring) :
  let url0 := str "http://x" in
  let content := str "Healthy eating matters. It helps you." in
  answered_at remote (metadata_request (metadata_prompt url0 content)) (requests w) k text ->
  (JSON_parse text = None \/
   exists v, JSON_parse text = Some v /\
     (has_truthy v "title" && has_truthy v "description" && has_truthy v "keywords")%bool
       = false) ->
  exists pm w',
    generateLLMMetadata JSON_parse remote url0 content w = (Returned pm, w') /\
    title pm = str "Healthy eating matters" /\
    keywords pm = extractKeywords content /\
    keywords pm = str "healthy, eating, matters, helps" /\
    description pm =
      str "Discover comprehensive insights about healthy eating matters."
      ++ str " Get expert guidance and practical strategies for better results..".
Proof.
  intros url0 content Hans Hbad.
  apply call_answered in Hans. fold (metadata_call remote url0 content) in Hans.
  pose proof (parse_and_validate_cases JSON_parse url0 {| generated_text := text |}
                (after_attempts (metadata_request (metadata_prompt url0 content)) k w)) as C.
  simpl generated_text in C.
  assert (exists e, parse_and_validate JSON_parse url0 {| generated_text := text |}
                      (after_attempts (metadata_request (metadata_prompt url0 content)) k w)
                    = (Thrown e, after_attempts (metadata_request (metadata_prompt url0 content)) k w))
    as [e He].
  { destruct Hbad as [Hnone | (v & Hv & Hlack)].
    - rewrite Hnone in C. eauto.
    - rewrite Hv in C. destruct (valid_fields v) as [[[t d] k']|] eqn:V; [|exact C].
      apply valid_fields_truthy in V. congruence. }
  eexists. eexists. split.
  - eapply generate_inner; eassumption.
  - repeat split; vm_compute; reflexivity.
Qed.

Lemma generateLLMMetadata_malformed_answer_witness :
  exists pm w',
    generateLLMMetadata Examples.no_json (Examples.answering (str "Sorry, no JSON today."))
      (str "http://x") (str "Healthy eating matters. It helps you.") Examples.w0
      = (Returned pm, w') /\
    title pm = str "Healthy eating matters" /\
    keywords pm = extractKeywords (str "Healthy eating matters. It helps you.") /\
    keywords pm = str "healthy, eating, matters, helps" /\
    description pm =
      str "Discover comprehensive insights about healthy eating matters."
      ++ str " Get expert guidance and practical strategies for better results..".
Proof.
  apply (@generateLLMMetadata_malformed_answer Examples.no_json
           (Examples.answering (str "Sorry, no JSON today.")) Examples.w0 0%nat
           (str "Sorry, no JSON today.")).
  - repeat split; [lia|]. intros j Hj. lia.
  - left. reflexivity.
Defined.


(** ** When the fallback fields are empty *)



(** The descriptions of both fallbacks start with a capital letter that no
    pattern touches. *)
Lemma fallback_description_nonempty (now : Z) (url0 content : jsstring) :
  description (fallback_fields now url0 content inner_opening inner_closing) <> [] /\
  description (fallback_fields now url0 content outer_opening outer_closing) <> [].
Proof.
  split; apply formatDescription_nonempty;
    unfold fallback_description, inner_opening, outer_opening;
    cbn [str list_ascii_of_string app];
    now apply cleanDescription_inert_nonempty.
Qed.

Section FieldFacts.

Variable JSON_parse : jsstring -> option value.
Variable remote : nat -> request -> reply.


End FieldFacts.


(** The success path on a well-formed answer: the title and the keywords
    trimmed, the description cut to its first two sentences. *)
Example generateLLMMetadata_success_example :
  fst (generateLLMMetadata
         (Examples.parses_to
            (Examples.answer " Healthy eating " "Eat well. Sleep more. Move a lot."
               "food, sleep "))
         (Examples.answering (str "{...}")) (str "http://x") (str "any") Examples.w0)
  = Returned {| id := 1700000000000;
                url := str "http://x";
                title := str "Healthy eating";
                description := str "Eat well. Sleep more.";
                keywords := str "food, sleep" |}.
Proof. vm_compute. reflexivity. Qed.

(** Validation looks at the fields before they are trimmed: a title of
    spaces passes it and comes out empty. *)
Example generateLLMMetadata_blank_title_example :
  fst (generateLLMMetadata
         (Examples.parses_to (Examples.answer "   " "Eat well." "food"))
         (Examples.answering (str "{...}")) (str "http://x") (str "any") Examples.w0)
  = Returned {| id := 1700000000000;
                url := str "http://x";
                title := [];
                description := str "Eat well..";
                keywords := str "food" |}.
Proof. vm_compute. reflexivity. Qed.

(* ================================================================== *)
(** * Further properties *)

(** ** The retry policy, for any number of retries *)

Section RetryLoop.

Variable T : Type.
Variable fn : M T.
Variables maxRetries baseDelay : Z.


End RetryLoop.



Section Backoff.

Variable remote : nat -> request -> reply.
Variable req : request.
Variables maxRetries baseDelay : Z.




End Backoff.





(** ** The keywords [extractKeywords] returns *)

Lemma lower_char_idempotent (c : ascii) : lower_char (lower_char c) = lower_char c.
Proof. destruct c as [[] [] [] [] [] [] [] []]; reflexivity. Qed.

Lemma lower_word_char (c : ascii) :
  is_word (lower_char c) = true -> keyword_char (lower_char c) = true.
Proof. destruct c as [[] [] [] [] [] [] [] []]; vm_compute; trivial. Qed.

Lemma keyword_char_parts (c : ascii) :
  keyword_char c = true ->
  is_space c = false /\ is_word c = true /\ lower_char c = c.
Proof. destruct c as [[] [] [] [] [] [] [] []]; vm_compute; intros H; try discriminate; auto. Qed.

Lemma toLowerCase_idempotent (s : jsstring) : toLowerCase (toLowerCase s) = toLowerCase s.
Proof.
  unfold toLowerCase. rewrite map_map. apply map_ext. apply lower_char_idempotent.
Qed.

(** The words read off a text hold its characters that are not whitespace. *)
Lemma words_of_chars (P : ascii -> Prop) (s : jsstring) :
  forall word,
    Forall P word -> Forall (fun c => is_space c = false -> P c) s ->
    Forall (Forall P) (words_of word s).
Proof.
  induction s as [|c s IH]; intros word Hword Hs; cbn [words_of].
  - unfold emit. destruct word; simpl; auto.
  - inversion Hs as [|? ? Hc Hs']; subst.
    destruct (is_space c) eqn:Hsp.
    + apply Forall_app. split; [|now apply IH].
      unfold emit. destruct word; simpl; auto.
    + apply IH; trivial. apply Forall_app. split; trivial.
      constructor; auto.
Qed.

Lemma stripped_lower_chars (content : jsstring) :
  Forall (fun c => is_space c = false -> keyword_char c = true)
    (strip_non_word_space (toLowerCase content)).
Proof.
  unfold strip_non_word_space, toLowerCase.
  induction content as [|c content IH]; [constructor|].
  cbn [map filter].
  destruct (is_word (lower_char c) || is_space (lower_char c))%bool eqn:H; [|exact IH].
  constructor; [|exact IH].
  intros Hsp. rewrite Hsp, orb_false_r in H. now apply lower_word_char.
Qed.

Lemma first_occurrences_incl (words seen : list jsstring) (word : jsstring) :
  In word (first_occurrences seen words) -> In word words.
Proof.
  revert seen. induction words as [|x words IH]; intros seen; cbn [first_occurrences].
  - trivial.
  - destruct (existsb (str_eqb x) seen).
    + intros H. right. eapply IH; eauto.
    + intros [-> | H]; [now left | right; eapply IH; eauto].
Qed.

Lemma first_occurrences_fresh (words seen : list jsstring) (word : jsstring) :
  In word (first_occurrences seen words) -> ~ In word seen.
Proof.
  revert seen. induction words as [|x words IH]; intros seen; cbn [first_occurrences].
  - intros [].
  - destruct (existsb (str_eqb x) seen) eqn:Hx.
    + apply IH.
    + intros [<- | H].
      * intros Hin. assert (existsb (str_eqb x) seen = true); [|congruence].
        apply existsb_exists. exists x. split; trivial. now apply str_eqb_eq.
      * intros Hin. apply (IH _ H). now right.
Qed.

Lemma first_occurrences_NoDup (words seen : list jsstring) :
  NoDup (first_occurrences seen words).
Proof.
  revert seen. induction words as [|x words IH]; intros seen; cbn [first_occurrences].
  - constructor.
  - destruct (existsb (str_eqb x) seen); [apply IH|].
    constructor; [|apply IH].
    intros H. apply first_occurrences_fresh in H. apply H. now left.
Qed.

Lemma firstn_incl (A : Type) (n : nat) (l : list A) (x : A) :
  In x (firstn n l) -> In x l.
Proof.
  revert l. induction n as [|n IH]; intros [|y l]; cbn [firstn]; try contradiction.
  intros [-> | H]; [now left | right; now apply IH].
Qed.

Lemma firstn_NoDup (A : Type) (n : nat) (l : list A) : NoDup l -> NoDup (firstn n l).
Proof.
  revert l. induction n as [|n IH]; intros l H; [constructor|].
  destruct l as [|x l]; [constructor|]. cbn [firstn].
  inversion H; subst. constructor; [|now apply IH].
  intros Hin. now apply firstn_incl in Hin.
Qed.

(** The candidates of [extractKeywords content], in the words of the spec. *)
Lemma kept_candidates (content : jsstring) (word : jsstring) :
  In word (filter kept_word (words_of [] (strip_non_word_space (toLowerCase content)))) ->
  keyword word = true.
Proof.
  intros H. apply filter_In in H as [Hin Hkept].
  unfold keyword. unfold kept_word in Hkept.
  apply andb_true_iff in Hkept as [Hlen Hstop].
  rewrite Nat.ltb_antisym, Hlen. unfold stop_word in Hstop.
  fold commonWords in Hstop. fold (Set_has commonWords word) in Hstop.
  rewrite Hstop, andb_true_r. cbn [andb]. apply forallb_forall.
  pose proof (@words_of_chars (fun c => keyword_char c = true)
                (strip_non_word_space (toLowerCase content)) []
                (Forall_nil _) (stripped_lower_chars content)) as Hall.
  rewrite Forall_forall in Hall. specialize (Hall word Hin).
  now rewrite Forall_forall in Hall.
Qed.

(** The result of [extractKeywords] is a list of at most five keywords, all
    different, joined by a comma and a space. *)
Lemma extractKeywords_words (content : jsstring) :
  exists words,
    extractKeywords content = join (str ", ") words /\
    List.length words <= 5 /\ NoDup words /\ forallb keyword words = true.
Proof.
  rewrite extractKeywords_refines. unfold extractKeywords_spec.
  set (candidates := filter kept_word _).
  exists (firstn 5 (first_occurrences [] candidates)).
  split; [reflexivity|]. split; [apply firstn_le_length|].
  split; [apply firstn_NoDup, first_occurrences_NoDup|].
  apply forallb_forall. intros word H.
  apply firstn_incl, first_occurrences_incl in H.
  now apply (kept_candidates content).
Qed.

(** X4: whatever the content, [extractKeywords] returns at most five words
    joined by a comma and a space; the words are all different, each has
    more than three characters, all of them lower-case letters, digits or
    underscores, and none is a stop word. *)
Theorem extractKeywords_shape (content : jsstring) :
  exists words,
    extractKeywords content = join (str ", ") words /\
    List.length words <= 5 /\ NoDup words /\
    forall word, In word words ->
      3 < List.length word /\
      (forall c, In c word -> keyword_char c = true) /\
      Set_has commonWords word = false.
Proof.
  destruct (extractKeywords_words content) as (words & E & Hlen & Hnodup & Hall).
  exists words. repeat split; trivial;
    rewrite forallb_forall in Hall; specialize (Hall word H);
    unfold keyword in Hall;
    apply andb_true_iff in Hall as [Hall Hstop];
    apply andb_true_iff in Hall as [Hl Hchars].
  - now apply Nat.ltb_lt.
  - rewrite forallb_forall in Hchars. auto.
  - now apply negb_true_iff.
Qed.

Lemma keyword_parts (word : jsstring) :
  keyword word = true ->
  3 < List.length word /\ forallb keyword_char word = true /\
  Set_has commonWords word = false.
Proof.
  unfold keyword. intros H.
  apply andb_true_iff in H as [H Hstop]. apply andb_true_iff in H as [Hlen Hchars].
  repeat split; trivial; [now apply Nat.ltb_lt | now apply negb_true_iff].
Qed.

Lemma map_fixed (A : Type) (f : A -> A) (l : list A) :
  Forall (fun x => f x = x) l -> map f l = l.
Proof. induction 1 as [|x l Hx _ IH]; simpl; congruence. Qed.

Lemma join_chars (P : ascii -> Prop) (sep : jsstring) (words : list jsstring) :
  Forall P sep -> Forall (Forall P) words -> Forall P (join sep words).
Proof.
  intros Hsep. induction 1 as [|w words Hw Hwords IH]; [constructor|].
  cbn [join]. destruct words as [|w' words]; trivial.
  apply Forall_app. split; trivial. apply Forall_app. now split.
Qed.

Lemma keyword_chars (words : list jsstring) (P : ascii -> Prop) :
  (forall c, keyword_char c = true -> P c) ->
  forallb keyword words = true -> Forall (Forall P) words.
Proof.
  intros HP H. rewrite forallb_forall in H. apply Forall_forall. intros w Hw.
  apply H, keyword_parts in Hw as (_ & Hchars & _).
  rewrite forallb_forall in Hchars. apply Forall_forall. auto.
Qed.

Section Keywords.

Variable words : list jsstring.
Hypothesis Hkeywords : forallb keyword words = true.

Lemma joined_lower : toLowerCase (join (str ", ") words) = join (str ", ") words.
Proof.
  apply map_fixed, join_chars.
  - repeat constructor.
  - apply keyword_chars; trivial. intros c Hc. now apply keyword_char_parts in Hc.
Qed.

Lemma joined_strip :
  strip_non_word_space (join (str ", ") words) = join (str " ") words.
Proof.
  unfold strip_non_word_space.
  assert (forall w, In w words ->
            filter (fun c => (is_word c || is_space c)%bool) w = w) as Hword.
  { intros w Hw. rewrite forallb_forall in Hkeywords.
    apply Hkeywords, keyword_parts in Hw as (_ & Hchars & _).
    rewrite forallb_forall in Hchars. apply forallb_filter_id, forallb_forall.
    intros c Hc. apply Hchars, keyword_char_parts in Hc as (_ & -> & _). reflexivity. }
  clear Hkeywords. induction words as [|w ws IH]; [reflexivity|].
  cbn [join]. destruct ws as [|w' ws]; [apply Hword; now left|].
  rewrite !filter_app, Hword by now left.
  rewrite IH by (intros x Hx; apply Hword; now right). reflexivity.
Qed.

Lemma words_of_word (w rest acc : jsstring) :
  forallb keyword_char w = true ->
  words_of acc (w ++ rest) = words_of (acc ++ w) rest.
Proof.
  revert acc. induction w as [|c w IH]; intros acc H.
  - now rewrite app_nil_r.
  - cbn [forallb] in H. apply andb_true_iff in H as [Hc H].
    cbn [app words_of]. apply keyword_char_parts in Hc as (-> & _).
    rewrite IH by trivial. now rewrite <- app_assoc.
Qed.

Lemma joined_words : words_of [] (join (str " ") words) = words.
Proof.
  assert (forall w, In w words -> forallb keyword_char w = true /\ emit w = [w]) as Hword.
  { intros w Hw. rewrite forallb_forall in Hkeywords.
    apply Hkeywords, keyword_parts in Hw as (Hlen & Hchars & _).
    split; trivial. destruct w; [simpl in Hlen; lia | reflexivity]. }
  clear Hkeywords. induction words as [|w ws IH]; [reflexivity|].
  destruct (Hword w) as [Hchars Hemit]; [now left|].
  cbn [join]. destruct ws as [|w' ws].
  - rewrite <- (app_nil_r w) at 1. rewrite words_of_word by trivial.
    cbn [app words_of]. exact Hemit.
  - rewrite words_of_word by trivial. change (str " ") with [" "%char].
    cbn [app words_of]. change (is_space " ") with true. cbv iota.
    change [" "%char] with (str " ").
    rewrite Hemit, IH by (intros x Hx; apply Hword; now right). reflexivity.
Qed.

Lemma keywords_kept : filter kept_word words = words.
Proof.
  apply forallb_filter_id, forallb_forall. intros w Hw.
  rewrite forallb_forall in Hkeywords.
  apply Hkeywords, keyword_parts in Hw as (Hlen & _ & Hstop).
  unfold kept_word. apply andb_true_iff. split.
  - apply negb_true_iff, Nat.leb_gt. exact Hlen.
  - apply negb_true_iff. exact Hstop.
Qed.

End Keywords.

Lemma first_occurrences_NoDup_id (words seen : list jsstring) :
  NoDup words -> (forall w, In w words -> ~ In w seen) ->
  first_occurrences seen words = words.
Proof.
  revert seen. induction words as [|x words IH]; intros seen Hnd Hfresh; [reflexivity|].
  cbn [first_occurrences]. inversion Hnd as [|? ? Hx Hnd']; subst.
  destruct (existsb (str_eqb x) seen) eqn:E.
  - apply existsb_exists in E as (y & Hy & Exy). apply str_eqb_eq in Exy. subst y.
    exfalso. apply (Hfresh x); [now left | trivial].
  - f_equal. apply IH; trivial.
    intros w Hw [<- | Hin]; [contradiction|].
    apply (Hfresh w); [now right | trivial].
Qed.

(** A keyword list that [extractKeywords] could have returned is returned
    unchanged. *)
Lemma extractKeywords_joined (words : list jsstring) :
  forallb keyword words = true -> NoDup words -> List.length words <= 5 ->
  extractKeywords (join (str ", ") words) = join (str ", ") words.
Proof.
  intros Hk Hnd Hlen. rewrite extractKeywords_refines. unfold extractKeywords_spec.
  rewrite joined_lower, joined_strip, joined_words, keywords_kept by assumption.
  rewrite first_occurrences_NoDup_id by (trivial; intros w _ []).
  now rewrite firstn_all2.
Qed.

(** X5: [extractKeywords] is idempotent: the keywords of its own result are
    that result. *)
Theorem extractKeywords_idempotent (content : jsstring) :
  extractKeywords (extractKeywords content) = extractKeywords content.
Proof.
  destruct (extractKeywords_words content) as (words & -> & Hlen & Hnd & Hk).
  now apply extractKeywords_joined.
Qed.

(** X6: letter case and the characters that are neither word characters
    nor whitespace play no part: the content in lower case, and the content
    in lower case without those characters, have the keywords of the
    content. *)
Theorem extractKeywords_ignores_case_and_punctuation (content : jsstring) :
  extractKeywords (toLowerCase content) = extractKeywords content /\
  extractKeywords (strip_non_word_space (toLowerCase content)) = extractKeywords content.
Proof.
  rewrite !extractKeywords_refines. unfold extractKeywords_spec. split.
  - now rewrite toLowerCase_idempotent.
  - assert (toLowerCase (strip_non_word_space (toLowerCase content))
            = strip_non_word_space (toLowerCase content)) as ->.
    { apply map_fixed. unfold strip_non_word_space, toLowerCase.
      apply Forall_forall. intros c Hc. apply filter_In in Hc as [Hc _].
      apply in_map_iff in Hc as (c' & <- & _). apply lower_char_idempotent. }
    assert (strip_non_word_space (strip_non_word_space (toLowerCase content))
            = strip_non_word_space (toLowerCase content)) as ->; [|reflexivity].
    unfold strip_non_word_space. apply forallb_filter_id, forallb_forall.
    intros c Hc. now apply filter_In in Hc as [_ Hc].
Qed.

Lemma str_eqb_length (a b : jsstring) : str_eqb a b = true -> List.length a = List.length b.
Proof. intros H. apply str_eqb_eq in H. now subst. Qed.

(** X7: in the filter of [extractKeywords] only the stop words "with" and
    "your" ever decide: the other nine have at most three characters and
    are turned down by the length test already. *)
Theorem extractKeywords_filter_simplified (word : jsstring) :
  ((3 <? List.length word) && negb (Set_has commonWords word))%bool =
  ((3 <? List.length word)
   && negb (str_eqb word (str "with")) && negb (str_eqb word (str "your")))%bool.
Proof.
  destruct (3 <? List.length word) eqn:Hlen; [|reflexivity].
  apply Nat.ltb_lt in Hlen. cbn [andb].
  assert (forall short, List.length short <= 3 -> str_eqb word short = false) as Hshort.
  { intros short Hs. destruct (str_eqb word short) eqn:E; trivial.
    apply str_eqb_length in E. lia. }
  unfold Set_has, commonWords. cbn [map existsb].
  rewrite (Hshort (str "and")), (Hshort (str "the")), (Hshort (str "for")),
    (Hshort (str "in")), (Hshort (str "to")), (Hshort (str "of")), (Hshort (str "a")),
    (Hshort (str "by")), (Hshort (str "on")) by (simpl; lia).
  cbn [orb]. rewrite orb_false_r. now rewrite negb_orb.
Qed.

(** ** Tidy text: what [cleanDescription] and [formatDescription] return *)

Lemma skip_while_starts_visible (s : jsstring) :
  starts_visible (skip_while is_space s) = true.
Proof.
  induction s as [|c s IH]; [reflexivity|]. cbn [skip_while].
  destruct (is_space c) eqn:Hc; [exact IH|].
  unfold starts_visible, visible. now rewrite Hc.
Qed.

Lemma skip_while_length (p : ascii -> bool) (s : jsstring) :
  List.length (skip_while p s) <= List.length s.
Proof.
  destruct (skip_while_suffix p s) as (m & Hm & _).
  rewrite Hm at 2. rewrite length_app. lia.
Qed.

(** Once runs of whitespace are replaced by one space, every whitespace
    character is a single space. *)
Lemma spaces_output (n : nat) :
  forall s, List.length s < n ->
    single_spaced (replace_all re_spaces (str " ") s) = true /\
    (starts_visible s = true ->
     starts_visible (replace_all re_spaces (str " ") s) = true).
Proof.
  unfold re_spaces.
  induction n as [|n IH]; intros s Hn; [lia|].
  destruct s as [|c s]; [split; reflexivity|].
  destruct (is_space c) eqn:Hc.
  - destruct (skip_while_suffix is_space s) as (m & Hm & _).
    pose proof (exec_Plus_hit is_space c s Hc) as Hexec.
    rewrite Hm in Hexec at 1. rewrite Hm at 1 2.
    rewrite (replace_all_match _ _ _ _ Hexec).
    destruct (IH (skip_while is_space s)) as [Hss Hsv].
    { pose proof (skip_while_length is_space s). simpl in Hn. lia. }
    specialize (Hsv (skip_while_starts_visible s)).
    split.
    + change (str " ") with [" "%char] in *.
      cbn [app single_spaced].
      change (is_space " ") with true. cbv iota. rewrite Hss.
      destruct (replace_all (Plus is_space) [" "%char] (skip_while is_space s)) eqn:E;
        [reflexivity|].
      unfold starts_visible, visible in Hsv. now rewrite Hsv.
    + unfold starts_visible, visible. now rewrite Hc.
  - rewrite replace_all_keep by now apply exec_Plus_miss.
    destruct (IH s) as [Hss _]; [simpl in Hn; lia|].
    split.
    + cbn [single_spaced]. now rewrite Hc.
    + intros _. unfold starts_visible, visible. now rewrite Hc.
Qed.

Lemma spaces_single (s : jsstring) :
  single_spaced (replace_all re_spaces (str " ") s) = true.
Proof. apply (@spaces_output (S (List.length s))). lia. Qed.

Lemma single_spaced_suffix (a b : jsstring) :
  single_spaced (a ++ b) = true -> single_spaced b = true.
Proof.
  induction a as [|c a IH]; [trivial|]. cbn [app single_spaced].
  intros H. apply andb_true_iff in H as [_ H]. now apply IH.
Qed.

Lemma single_spaced_prefix (a b : jsstring) :
  single_spaced (a ++ b) = true -> single_spaced a = true.
Proof.
  induction a as [|c a IH]; [reflexivity|]. cbn [app single_spaced].
  intros H. apply andb_true_iff in H as [Hc H]. rewrite (IH H), andb_true_r.
  destruct (is_space c); [|reflexivity].
  apply andb_true_iff in Hc as [-> Hnext]. destruct a; [reflexivity | exact Hnext].
Qed.

Lemma trimStart_suffix (s : jsstring) : exists m, s = m ++ trimStart s.
Proof.
  rewrite trimStart_is_skip. destruct (skip_while_suffix is_space s) as (m & Hm & _).
  now exists m.
Qed.

Lemma trimEnd_prefix (s : jsstring) : exists m, s = trimEnd s ++ m.
Proof.
  unfold trimEnd. destruct (trimStart_suffix (rev s)) as (m & Hm).
  exists (rev m). rewrite <- rev_app_distr, <- Hm. now rewrite rev_involutive.
Qed.

Lemma trimStart_starts (s : jsstring) : starts_visible (trimStart s) = true.
Proof. rewrite trimStart_is_skip. apply skip_while_starts_visible. Qed.

Lemma trim_starts (s : jsstring) : starts_visible (trim s) = true.
Proof.
  unfold trim. pose proof (trimStart_starts s) as H.
  destruct (trimEnd_prefix (trimStart s)) as (m & Hm).
  destruct (trimEnd (trimStart s)) as [|c t]; [reflexivity|].
  rewrite Hm in H. exact H.
Qed.

Lemma trim_ends (s : jsstring) : ends_visible (trim s) = true.
Proof.
  unfold ends_visible, trim, trimEnd. rewrite rev_involutive. apply trimStart_starts.
Qed.

(** [trim] leaves no whitespace at either end. *)
Lemma trim_trimmed (s : jsstring) : trimmed (trim s) = true.
Proof. unfold trimmed. now rewrite trim_starts, trim_ends. Qed.

Lemma trim_single_spaced (s : jsstring) :
  single_spaced s = true -> single_spaced (trim s) = true.
Proof.
  intros H. unfold trim.
  destruct (trimStart_suffix s) as (m & Hm). rewrite Hm in H.
  apply single_spaced_suffix in H.
  destruct (trimEnd_prefix (trimStart s)) as (m' & Hm'). rewrite Hm' in H.
  now apply single_spaced_prefix in H.
Qed.

Lemma trim_tidy (s : jsstring) : single_spaced s = true -> tidy (trim s) = true.
Proof.
  intros H. unfold tidy. now rewrite trim_single_spaced, trim_trimmed.
Qed.

(** X8: whatever the text, [cleanDescription] returns a text without
    whitespace at its ends in which every whitespace character is a single
    space followed by a character that is not whitespace. *)
Theorem cleanDescription_tidy (text : jsstring) :
  single_spaced (cleanDescription text) = true /\
  starts_visible (cleanDescription text) = true /\
  ends_visible (cleanDescription text) = true /\
  forall c, In c (cleanDescription text) -> is_space c = true -> c = " "%char.
Proof.
  unfold cleanDescription.
  set (s := replace_all re_spaces (str " ") _).
  pose proof (@trim_tidy s (spaces_single _)) as H.
  unfold tidy, trimmed in H.
  apply andb_true_iff in H as [Hss H]. apply andb_true_iff in H as [Hsv Hev].
  repeat split; trivial.
  intros c Hin Hc. revert Hss Hin. generalize (trim s). intros t.
  induction t as [|d t IH]; [intros _ []|].
  cbn [single_spaced]. intros Hss [-> | Hin].
  - rewrite Hc in Hss. apply andb_true_iff in Hss as [Hss _].
    apply andb_true_iff in Hss as [Hss _]. now apply Ascii.eqb_eq in Hss.
  - apply andb_true_iff in Hss as [_ Hss]. now apply IH.
Qed.

Lemma substring_tail (c : ascii) (p s : jsstring) :
  substring p s -> substring p (c :: s).
Proof. intros (a & b & ->). now exists (c :: a), b. Qed.

(** The pieces of a split are runs of the subject; the first piece starts
    where the scan starts. *)
Lemma split_from_pieces (r : regex) (s : jsstring) :
  forall skip fresh,
    exists h t, split_from r skip fresh s = h :: t /\
      (skip = 0 -> exists b, s = h ++ b) /\
      substring h s /\
      forall p, In p t -> substring p s.
Proof.
  induction s as [|c s IH]; intros skip fresh; cbn [split_from].
  - exists [], []. repeat split; try (now exists [], []); try (now exists []);
      try contradiction.
  - destruct skip as [|k].
    + assert (Hpush : exists h t, push c (split_from r 0 false s) = h :: t /\
                (exists b, c :: s = h ++ b) /\ forall p, In p t -> substring p (c :: s)).
      { destruct (IH 0 false) as (h & t & -> & Hpre & _ & Ht).
        destruct (Hpre eq_refl) as (b & Hb).
        exists (c :: h), t. repeat split.
        - exists b. now rewrite Hb.
        - intros p Hp. now apply substring_tail, Ht. }
      assert (Hcut : forall k fresh', exists h t,
                [] :: split_from r k fresh' s = h :: t /\
                (exists b, c :: s = h ++ b) /\ forall p, In p t -> substring p (c :: s)).
      { intros k fresh'. destruct (IH k fresh') as (h & t & E & _ & Hh & Ht).
        exists [], (split_from r k fresh' s). repeat split.
        - now exists (c :: s).
        - rewrite E. intros p [<- | Hp]; apply substring_tail; auto. }
      assert (Hboth : exists h t,
                [] :: push c (split_from r 0 false s) = h :: t /\
                (exists b, c :: s = h ++ b) /\ forall p, In p t -> substring p (c :: s)).
      { destruct Hpush as (h & t & E & (b & Hb) & Ht).
        exists [], (h :: t). rewrite E. repeat split.
        - now exists (c :: s).
        - intros p [<- | Hp]; [|now apply Ht]. exists [], b. exact Hb. }
      assert (Hfin : forall l, (exists h t, l = h :: t /\
                (exists b, c :: s = h ++ b) /\ forall p, In p t -> substring p (c :: s)) ->
              exists h t, l = h :: t /\ (0 = 0 -> exists b, c :: s = h ++ b) /\
                substring h (c :: s) /\ forall p, In p t -> substring p (c :: s)).
      { intros l (h & t & -> & (b & Hb) & Ht). exists h, t. repeat split; trivial.
        - intros _. now exists b.
        - now exists [], b. }
      apply Hfin.
      destruct (exec r (c :: s)) as [rest|]; [|exact Hpush].
      destruct (List.length (c :: s) - List.length rest); [|apply Hcut].
      destruct fresh; [exact Hpush | exact Hboth].
    + destruct (IH k true) as (h & t & E & _ & Hh & Ht).
      exists h, t. repeat split; trivial.
      * discriminate.
      * now apply substring_tail.
      * intros p Hp. now apply substring_tail, Ht.
Qed.

Lemma split_regex_pieces (r : regex) (s p : jsstring) :
  In p (split_regex r s) -> substring p s.
Proof.
  destruct s as [|c s].
  - cbn [split_regex]. destruct (exec r []); [intros []|].
    intros [<- | []]. now exists [], [].
  - rewrite split_regex_nonempty.
    destruct (split_from_pieces r (c :: s) 0 true) as (h & t & -> & _ & Hh & Ht).
    intros [<- | Hp]; auto.
Qed.

Lemma single_spaced_substring (p s : jsstring) :
  substring p s -> single_spaced s = true -> single_spaced p = true.
Proof.
  intros (a & b & ->) H. apply single_spaced_suffix in H.
  now apply single_spaced_prefix in H.
Qed.

Lemma single_spaced_app (a b : jsstring) :
  single_spaced a = true -> single_spaced b = true -> starts_visible b = true ->
  single_spaced (a ++ b) = true.
Proof.
  intros Ha Hb Hv. induction a as [|c a IH]; [exact Hb|].
  cbn [app single_spaced] in Ha |- *.
  apply andb_true_iff in Ha as [Hc Ha]. rewrite (IH Ha), andb_true_r.
  destruct (is_space c); [|reflexivity].
  apply andb_true_iff in Hc as [-> Hnext]. destruct a as [|d a]; [|exact Hnext].
  destruct b; [reflexivity | exact Hv].
Qed.

Lemma ends_visible_app (a b : jsstring) :
  b <> [] -> ends_visible (a ++ b) = ends_visible b.
Proof.
  intros Hb. unfold ends_visible. rewrite rev_app_distr.
  destruct (rev b) eqn:E; [|reflexivity].
  apply (f_equal (@rev ascii)) in E. rewrite rev_involutive in E. contradiction.
Qed.

Lemma starts_visible_app (a b : jsstring) :
  a <> [] -> starts_visible (a ++ b) = starts_visible a.
Proof. destruct a; [contradiction | reflexivity]. Qed.

(** Non-empty tidy sentences joined by period and space, with the final
    period, are tidy again. *)
Lemma join_tidy (l : list jsstring) :
  l <> [] -> Forall (fun p => tidy p = true /\ p <> []) l ->
  tidy (join (str ". ") l ++ str ".") = true /\ join (str ". ") l ++ str "." <> [].
Proof.
  intros Hl Hall. induction Hall as [|x l [Hx Hne] Hall IH]; [contradiction|].
  unfold tidy, trimmed in Hx.
  apply andb_true_iff in Hx as [Hss Hx]. apply andb_true_iff in Hx as [Hsv Hev].
  destruct l as [|y l].
  - cbn [join]. split; [|destruct x; discriminate].
    unfold tidy, trimmed.
    rewrite single_spaced_app by (trivial; reflexivity).
    rewrite starts_visible_app by assumption.
    rewrite ends_visible_app by discriminate.
    now rewrite Hsv.
  - destruct IH as [IH Hne']; [discriminate|].
    change (join (str ". ") (x :: y :: l)) with (x ++ str ". " ++ join (str ". ") (y :: l)).
    set (T := join (str ". ") (y :: l)) in *.
    replace ((x ++ str ". " ++ T) ++ str ".") with (x ++ str ". " ++ (T ++ str "."))
      by now rewrite <- !app_assoc.
    set (U := T ++ str ".") in *.
    unfold tidy, trimmed in IH |- *.
    apply andb_true_iff in IH as [Uss IH]. apply andb_true_iff in IH as [Usv Uev].
    split; [|destruct x; discriminate].
    rewrite starts_visible_app by assumption. rewrite Hsv.
    rewrite !ends_visible_app by (intros E; now destruct U).
    rewrite Uev, !andb_true_r.
    apply single_spaced_app; trivial.
    change (str ". ") with ["."%char; " "%char]. cbn [app single_spaced].
    change (is_space ".") with false. change (is_space " ") with true. cbv iota.
    rewrite Uss. destruct U; [contradiction|].
    unfold starts_visible, visible in Usv. rewrite Usv. split; reflexivity.
Qed.

(** X9: whatever the description, [formatDescription] returns a text without
    whitespace at its ends and with single spaces only. *)
Theorem formatDescription_tidy (description : jsstring) :
  tidy (formatDescription description) = true.
Proof.
  unfold formatDescription.
  destruct (is_empty description); [reflexivity|]. cbv zeta.
  destruct (cleanDescription_tidy description) as (Hss & Hsv & Hev & _).
  set (cleaned := cleanDescription description) in *.
  set (l := filter truthy_str (map trim (slice0 2 (split_regex re_sentence_end cleaned)))).
  assert (Hall : Forall (fun p => tidy p = true /\ p <> []) l).
  { apply Forall_forall. intros p Hp. apply filter_In in Hp as [Hp Ht].
    apply truthy_str_nonempty in Ht. split; [|exact Ht].
    apply in_map_iff in Hp as (q & <- & Hq).
    apply trim_tidy. apply single_spaced_substring with (s := cleaned); [|exact Hss].
    apply split_regex_pieces with (r := re_sentence_end).
    unfold slice0 in Hq. revert Hq. apply firstn_incl. }
  destruct (0 <? List.length (join (str ". ") l)) eqn:E.
  - apply join_tidy; [|exact Hall]. intros ->. discriminate.
  - unfold tidy, trimmed. now rewrite Hss, Hsv, Hev.
Qed.

(** ** Plain sentences, any number of them *)

Section Prose.

Variable tail : jsstring.
Hypothesis Htail : tail = [] \/ tail = str ".".

Lemma join_more (sep a b : jsstring) (l : list jsstring) :
  join sep (a :: b :: l) = a ++ sep ++ join sep (b :: l).
Proof. reflexivity. Qed.

Lemma tail_quiet : forallb quiet tail = true.
Proof. destruct Htail as [-> | ->]; reflexivity. Qed.

Lemma prose_starts_visible (l : list jsstring) (rest : jsstring) :
  forallb fragment l = true -> l <> [] ->
  starts_visible (join (str ". ") l ++ rest) = true.
Proof.
  destruct l as [|a l]; [contradiction|]. cbn [forallb]. intros H _.
  apply andb_true_iff in H as [Ha _].
  destruct l; [|rewrite join_more, <- app_assoc]; now apply starts_visible_fragment.
Qed.

Lemma prose_quiet (l : list jsstring) :
  forallb fragment l = true -> forallb quiet (join (str ". ") l) = true.
Proof.
  induction l as [|a l IH]; [reflexivity|]. cbn [forallb]. intros H.
  apply andb_true_iff in H as [Ha Hl].
  destruct l as [|b l]; [now apply fragment_quiet|].
  change (join (str ". ") (a :: b :: l)) with (a ++ str ". " ++ join (str ". ") (b :: l)).
  rewrite !forallb_app, (fragment_quiet a Ha), (IH Hl). reflexivity.
Qed.

Lemma prose_single_spaced (l : list jsstring) (rest : jsstring) :
  forallb fragment l = true -> l <> [] ->
  single_spaced rest = true -> starts_visible rest = true ->
  single_spaced (join (str ". ") l ++ rest) = true.
Proof.
  intros H Hne Hs Hv. induction l as [|a l IH]; [contradiction|]. cbn [forallb] in H.
  apply andb_true_iff in H as [Ha Hl].
  destruct l as [|b l]; [now apply fragment_single_spaced|].
  change (join (str ". ") (a :: b :: l)) with (a ++ str ". " ++ join (str ". ") (b :: l)).
  rewrite <- !app_assoc. apply fragment_single_spaced; trivial.
  apply single_spaced_dot_space.
  - now apply prose_starts_visible.
  - apply IH; [exact Hl | discriminate].
Qed.

Lemma prose_period (l : list jsstring) (rest : jsstring) :
  forallb fragment l = true -> l <> [] ->
  replace_all re_period (str ". ") (join (str ". ") l ++ rest) =
  join (str ". ") l ++ replace_all re_period (str ". ") rest.
Proof.
  intros H Hne. induction l as [|a l IH]; [contradiction|]. cbn [forallb] in H.
  apply andb_true_iff in H as [Ha Hl].
  destruct l as [|b l]; [now apply period_in_fragment|].
  change (join (str ". ") (a :: b :: l)) with (a ++ str ". " ++ join (str ". ") (b :: l)).
  rewrite <- !app_assoc. rewrite period_in_fragment by assumption.
  change (str ". " ++ join (str ". ") (b :: l) ++ rest)
    with ("."%char :: " "%char :: join (str ". ") (b :: l) ++ rest).
  rewrite period_at_dot. cbn [skip_while]. change (is_space " ") with true. cbv iota.
  rewrite skip_starts_visible by (apply prose_starts_visible; [exact Hl | discriminate]).
  rewrite IH; [reflexivity | exact Hl | discriminate].
Qed.

Lemma prose_last (l : list jsstring) :
  forallb fragment l = true -> l <> [] ->
  exists X c, join (str ". ") l = X ++ [c] /\ visible c = true.
Proof.
  intros H Hne. induction l as [|a l IH]; [contradiction|]. cbn [forallb] in H.
  apply andb_true_iff in H as [Ha Hl].
  destruct l as [|b l].
  - destruct (fragment_last a Ha) as (X & c & -> & Hc).
    exists X, c. split; [reflexivity | now apply plain_visible].
  - destruct IH as (X & c & E & Hc); [exact Hl | discriminate|].
    change (join (str ". ") (a :: b :: l)) with (a ++ str ". " ++ join (str ". ") (b :: l)).
    rewrite E. exists (a ++ str ". " ++ X), c. split; [now rewrite <- !app_assoc | exact Hc].
Qed.

(** Plain sentences, with or without the final period, are clean already. *)
Lemma clean_prose (l : list jsstring) :
  forallb fragment l = true -> l <> [] ->
  cleanDescription (join (str ". ") l ++ tail) = join (str ". ") l ++ tail.
Proof.
  intros H Hne.
  assert (forallb quiet (join (str ". ") l ++ tail) = true) as Hq
    by (rewrite forallb_app, prose_quiet, tail_quiet; trivial).
  assert (single_spaced (join (str ". ") l ++ tail) = true) as Hs.
  { destruct Htail as [-> | ->]; now apply prose_single_spaced. }
  unfold cleanDescription.
  rewrite (@numbered_quiet _ Hq), (@here_are_quiet _ Hq), (@spaces_single_spaced _ Hs),
    (@line_break_quiet _ Hq).
  rewrite prose_period by assumption.
  destruct (prose_last H Hne) as (X & c & E & Hc).
  destruct Htail as [-> | ->].
  - rewrite period_at_end.
    rewrite (@comma_quiet _ Hq), (@spaces_single_spaced _ Hs).
    unfold trim. rewrite trimStart_starts_visible by now apply prose_starts_visible.
    rewrite app_nil_r, E. now apply trimEnd_visible_last.
  - change (str ".") with ["."%char]. rewrite period_at_dot. cbn [skip_while].
    rewrite period_at_end, app_nil_r.
    assert (forallb quiet (join (str ". ") l ++ str ". ") = true) as Hq'
      by (rewrite forallb_app, prose_quiet; trivial).
    assert (single_spaced (join (str ". ") l ++ str ". ") = true) as Hs'
      by now apply prose_single_spaced.
    rewrite (@comma_quiet _ Hq'), (@spaces_single_spaced _ Hs').
    unfold trim. rewrite trimStart_starts_visible by now apply prose_starts_visible.
    change (str ". ") with (["."%char] ++ [" "%char]).
    rewrite app_assoc, trimEnd_space_last. now apply trimEnd_visible_last.
Qed.

Lemma split_tail : split_from re_sentence_end 0 false tail = [tail].
Proof. destruct Htail as [-> | ->]; reflexivity. Qed.

Lemma split_prose (l : list jsstring) :
  forallb fragment l = true -> l <> [] ->
  forall fresh, split_from re_sentence_end 0 fresh (join (str ". ") l ++ tail) = pieces tail l.
Proof.
  intros H Hne. induction l as [|a l IH]; [contradiction|]. cbn [forallb] in H.
  apply andb_true_iff in H as [Ha Hl]. intros fresh.
  destruct l as [|b l].
  - cbn [join pieces]. rewrite split_in_fragment by assumption.
    now rewrite split_tail.
  - change (join (str ". ") (a :: b :: l)) with (a ++ str ". " ++ join (str ". ") (b :: l)).
    rewrite <- !app_assoc. rewrite split_in_fragment by assumption.
    change (str ". " ++ join (str ". ") (b :: l) ++ tail)
      with ("."%char :: " "%char :: join (str ". ") (b :: l) ++ tail).
    rewrite split_at_dot_space
      by (apply prose_starts_visible; [exact Hl | discriminate]).
    rewrite IH; [|exact Hl | discriminate].
    change (pieces tail (a :: b :: l)) with (a :: pieces tail (b :: l)).
    cbn [prepend]. now rewrite app_nil_r.
Qed.

Lemma trim_tail (a : jsstring) : fragment a = true -> trim (a ++ tail) = a ++ tail.
Proof.
  intros Ha. destruct Htail as [-> | ->].
  - rewrite app_nil_r. now apply trim_fragment.
  - now apply trim_fragment_dot.
Qed.

End Prose.

(** X10: of plain sentences separated by a period and a space, with or
    without a final period, [formatDescription] keeps the first two and
    appends a period; when there are at most two sentences the final period
    of the text is kept as well, so that the result ends with two. *)
Theorem formatDescription_first_two_sentences (l : list jsstring) (tail : jsstring) :
  forallb fragment l = true -> l <> [] -> tail = [] \/ tail = str "." ->
  formatDescription (join (str ". ") l ++ tail) =
  join (str ". ") (firstn 2 l) ++ (if List.length l <=? 2 then tail else []) ++ str ".".
Proof.
  intros H Hne Htail. unfold formatDescription.
  rewrite (clean_prose Htail) by assumption.
  destruct l as [|a l]; [contradiction|]. cbn [forallb] in H.
  apply andb_true_iff in H as [Ha Hl].
  assert (is_empty (join (str ". ") (a :: l) ++ tail) = false) as ->.
  { destruct l; [|rewrite join_more, <- app_assoc]; now apply fragment_is_empty. }
  assert (split_regex re_sentence_end (join (str ". ") (a :: l) ++ tail) = pieces tail (a :: l))
    as ->.
  { destruct (fragment_head a Ha) as (c & a' & E & _).
    pose proof (@split_prose tail Htail (a :: l)) as S. cbn [forallb] in S. rewrite Ha, Hl in S.
    specialize (S eq_refl Hne true).
    destruct l; rewrite E in S |- *; exact S. }
  destruct l as [|b l].
  - cbn [pieces slice0 firstn map]. rewrite (trim_tail Htail) by assumption.
    cbn [filter]. rewrite fragment_truthy by assumption. cbn [join List.length Nat.leb].
    rewrite fragment_length by assumption. now rewrite <- app_assoc.
  - cbn [forallb] in Hl. apply andb_true_iff in Hl as [Hb Hl].
    destruct l as [|c l].
    + cbn [pieces slice0 firstn map]. rewrite trim_fragment, (trim_tail Htail) by assumption.
      cbn [filter]. rewrite fragment_alone_truthy, fragment_truthy by assumption.
      cbn [join List.length Nat.leb]. rewrite fragment_length by assumption.
      now rewrite <- !app_assoc.
    + change (pieces tail (a :: b :: c :: l)) with (a :: b :: pieces tail (c :: l)).
      cbn [slice0 firstn map]. rewrite !trim_fragment by assumption.
      cbn [filter]. rewrite !fragment_alone_truthy by assumption.
      cbn [join List.length Nat.leb]. rewrite fragment_length by assumption.
      now rewrite <- !app_assoc.
Qed.

Lemma formatDescription_first_two_sentences_witness :
  formatDescription
    (join (str ". ") [str "Fresh bread"; str "Baked daily"; str "Come early"] ++ str ".") =
  join (str ". ") (firstn 2 [str "Fresh bread"; str "Baked daily"; str "Come early"]) ++
  (if List.length [str "Fresh bread"; str "Baked daily"; str "Come early"] <=? 2
   then str "." else []) ++ str ".".
Proof.
  apply (@formatDescription_first_two_sentences
           [str "Fresh bread"; str "Baked daily"; str "Come early"] (str ".")).
  - reflexivity.
  - discriminate.
  - now right.
Defined.

(** ** The fallback description *)

Lemma plain_lower_char (c : ascii) : plain (lower_char c) = plain c.
Proof. destruct c as [[] [] [] [] [] [] [] []]; reflexivity. Qed.

Lemma fragment_toLowerCase (a : jsstring) :
  fragment a = true -> fragment (toLowerCase a) = true.
Proof.
  intros H. pattern a. apply fragment_induction; trivial; clear a H.
  - intros c Hc. cbn [toLowerCase map fragment]. now rewrite plain_lower_char, Hc.
  - intros c a Hc _ IH. unfold toLowerCase in *. cbn [map fragment].
    rewrite plain_lower_char, Hc. change (lower_char " ") with " "%char.
    change (Ascii.eqb " " " ") with true. exact IH.
  - intros c a Hc _ IH. unfold toLowerCase in *. cbn [map fragment].
    rewrite plain_lower_char, Hc. cbn [andb].
    destruct (map lower_char a) as [|d a'] eqn:E; [reflexivity|].
    destruct (Ascii.eqb d " ") eqn:Hd; [|exact IH].
    apply Ascii.eqb_eq in Hd. subst d. discriminate.
Qed.

Lemma fragment_words (a b : jsstring) :
  fragment a = true -> fragment b = true -> fragment (a ++ " "%char :: b) = true.
Proof.
  intros H Hb. pattern a. apply fragment_induction; trivial; clear a H.
  - intros c Hc. cbn [app fragment]. rewrite Hc.
    change (Ascii.eqb " " " ") with true. exact Hb.
  - intros c a Hc _ IH. cbn [app fragment]. rewrite Hc.
    change (Ascii.eqb " " " ") with true. exact IH.
  - intros c a Hc Ha IH. cbn [app fragment]. rewrite Hc. cbn [andb].
    destruct (fragment_head a Ha) as (d & a' & -> & Hd). cbn [app] in *.
    destruct (Ascii.eqb d " ") eqn:E; [|exact IH].
    apply Ascii.eqb_eq in E. subst d. discriminate.
Qed.

(** With a plain main topic the template is two plain sentences with their
    periods, to which the formatter adds one more. *)
Lemma fallback_description_plain (opening a closing b : string) (topic : jsstring) :
  str opening = str a ++ str " " -> fragment (str a) = true ->
  str closing = str ". " ++ str b ++ str "." -> fragment (str b) = true ->
  fragment topic = true ->
  formatDescription (fallback_description opening topic closing) =
  fallback_description opening topic closing ++ str ".".
Proof.
  intros Eo Ha Ec Hb Ht. unfold fallback_description. rewrite Eo, Ec.
  assert (fragment (str a ++ " "%char :: toLowerCase topic) = true) as Hleft
    by now apply fragment_words, fragment_toLowerCase.
  replace ((str a ++ str " ") ++ toLowerCase topic ++ str ". " ++ str b ++ str ".")
    with ((str a ++ " "%char :: toLowerCase topic) ++ str ". " ++ str b ++ str ".")
    by (now rewrite <- !app_assoc).
  rewrite format_two by assumption. now rewrite <- !app_assoc.
Qed.

(** ** What a call of an entry point costs *)

Lemma after_attempts_cost (req : request) (k : nat) (w : World) :
  requests (after_attempts req k w) = requests w + S k /\
  clock (after_attempts req k w) = (clock w + 1000 * (2 ^ Z.of_nat k - 1))%Z.
Proof.
  induction k as [|k [IHr IHc]]; cbn [after_attempts requested slept requests clock].
  - split; [lia | change (2 ^ Z.of_nat 0)%Z with 1%Z; lia].
  - split; [lia|]. rewrite IHc.
    replace (Z.of_nat (S k)) with (Z.of_nat k + 1)%Z by lia.
    rewrite Z.pow_add_r by lia. change (2 ^ 1)%Z with 2%Z. lia.
Qed.

(** The retried call makes one to three requests, whatever it ends with. *)
Lemma retried_call_world (remote : nat -> request -> reply) (req : request) (w : World) :
  exists o k, k < 3 /\ retried_call remote req w = (o, after_attempts req k w).
Proof.
  destruct (call_cases remote req w) as [(k & text & H) | (e1 & e2 & e3 & H)].
  - exists (Returned {| generated_text := text |}), k.
    split; [apply H | now apply call_answered].
  - exists (Thrown e3), 2. split; [lia | now apply call_fails_thrice with e1 e2].
Qed.

(** X11: a call of [generateLLMMetadata] makes one, two or three requests and
    waits 0, 1000 or 3000 ms between them, whatever the client and the
    parser do; the identifier of the record is the time at which the call
    ends. *)
Theorem generateLLMMetadata_cost
  (JSON_parse : jsstring -> option value) (remote : nat -> request -> reply)
  (url0 content : jsstring) (w : World) :
  exists pm w' k,
    generateLLMMetadata JSON_parse remote url0 content w = (Returned pm, w') /\
    k < 3 /\
    requests w' = requests w + S k /\
    clock w' = (clock w + 1000 * (2 ^ Z.of_nat k - 1))%Z /\
    id pm = clock w'.
Proof.
  destruct (retried_call_world remote (metadata_request (metadata_prompt url0 content)) w)
    as (o & k & Hk & H).
  destruct (after_attempts_cost (metadata_request (metadata_prompt url0 content)) k w)
    as [Hr Hc].
  fold (metadata_call remote url0 content) in H.
  destruct o as [r|e].
  - destruct (parse_and_validate JSON_parse url0 r
                (after_attempts (metadata_request (metadata_prompt url0 content)) k w))
      as [[pm|e] w2] eqn:Hp.
    + exists pm, w2, k. split; [eapply generate_success; eauto|].
      apply parse_and_validate_returned in Hp as (-> & v & t & d & kw & _ & _ & ->).
      auto.
    + pose proof Hp as E. apply parse_and_validate_world in E. subst w2.
      eexists. eexists. exists k. split; [eapply generate_inner; eauto|]. auto.
  - eexists. eexists. exists k. split; [eapply generate_outer; eauto|]. auto.
Qed.

Lemma nonempty_lines_single (text : jsstring) :
  forall line,
    forallb (fun c => negb (Ascii.eqb c "010")) line = true ->
    Forall (fun s => single_line s = true) (nonempty_lines line text).
Proof.
  assert (Hemit : forall line,
    forallb (fun c => negb (Ascii.eqb c "010")) line = true ->
    Forall (fun s => single_line s = true) (emit line)).
  { intros [|c line] H; constructor; [exact H | constructor]. }
  induction text as [|c text IH]; intros line Hline; cbn [nonempty_lines].
  - now apply Hemit.
  - destruct (Ascii.eqb c "010") eqn:Hc.
    + apply Forall_app. split; [now apply Hemit | now apply IH].
    + apply IH. rewrite forallb_app, Hline. cbn [forallb]. now rewrite Hc.
Qed.

(** X12: a call of [analyzeContent] makes one, two or three requests and
    waits 0, 1000 or 3000 ms between them; every suggestion it returns is a
    non-empty text without a newline. *)
Theorem analyzeContent_cost_and_lines
  (remote : nat -> request -> reply) (content : jsstring) (w : World) :
  exists suggestions w' k,
    analyzeContent remote content w = (Returned suggestions, w') /\
    k < 3 /\
    requests w' = requests w + S k /\
    clock w' = (clock w + 1000 * (2 ^ Z.of_nat k - 1))%Z /\
    Forall (fun s => single_line s = true) suggestions.
Proof.
  destruct (call_cases remote (analysis_request (analysis_prompt content)) w)
    as [(k & text & H) | (e1 & e2 & e3 & H)].
  - destruct (after_attempts_cost (analysis_request (analysis_prompt content)) k w)
      as [Hr Hc].
    exists (nonempty_lines [] text),
      (after_attempts (analysis_request (analysis_prompt content)) k w), k.
    split; [apply analyze_answered; exact H|].
    repeat split; trivial; [apply H|]. now apply nonempty_lines_single.
  - destruct (after_attempts_cost (analysis_request (analysis_prompt content)) 2 w)
      as [Hr Hc].
    exists generic_suggestions,
      (logged "Error analyzing content with LLM:" e3
         (after_attempts (analysis_request (analysis_prompt content)) 2 w)), 2.
    split; [apply analyze_failed with e1 e2; exact H|].
    repeat split; trivial; [lia|]. repeat constructor.
Qed.

(** ** No field with whitespace at its ends *)

Lemma keyword_word (word : jsstring) :
  keyword word = true ->
  exists c word', word = c :: word' /\ visible c = true /\
    ends_visible word = true.
Proof.
  unfold keyword. intros H. apply andb_true_iff in H as [H _].
  apply andb_true_iff in H as [Hlen Hall].
  destruct word as [|c word]; [discriminate|]. exists c, word.
  assert (Hvis : forall d, In d (c :: word) -> visible d = true).
  { intros d Hd. rewrite forallb_forall in Hall.
    destruct (keyword_char_parts d (Hall d Hd)) as (Hs & _).
    unfold visible. now rewrite Hs. }
  repeat split; [apply Hvis; now left|].
  unfold ends_visible, starts_visible.
  destruct (rev (c :: word)) as [|d t] eqn:E; [reflexivity|].
  apply Hvis. apply in_rev. rewrite E. now left.
Qed.

Lemma join_keywords_trimmed (words : list jsstring) :
  forallb keyword words = true -> trimmed (join (str ", ") words) = true.
Proof.
  intros H. unfold trimmed. apply andb_true_iff. split.
  - destruct words as [|word rest]; [reflexivity|]. cbn [forallb] in H.
    apply andb_true_iff in H as [Hw _].
    destruct (keyword_word _ Hw) as (c & word' & -> & Hc & _).
    destruct rest; exact Hc.
  - induction words as [|word rest IH]; [reflexivity|]. cbn [forallb] in H.
    apply andb_true_iff in H as [Hw Hrest].
    destruct (keyword_word _ Hw) as (c & word' & E & _ & Hend).
    destruct rest as [|next rest]; [exact Hend|].
    change (join (str ", ") (word :: next :: rest))
      with (word ++ str ", " ++ join (str ", ") (next :: rest)).
    assert (join (str ", ") (next :: rest) <> []) as Hne.
    { cbn [forallb] in Hrest. apply andb_true_iff in Hrest as [Hn _].
      destruct (keyword_word _ Hn) as (d & next' & -> & _). destruct rest; discriminate. }
    rewrite (ends_visible_app word) by discriminate.
    rewrite ends_visible_app by exact Hne. now apply IH.
Qed.

Lemma extractKeywords_trimmed (content : jsstring) :
  trimmed (extractKeywords content) = true.
Proof.
  destruct (extractKeywords_words content) as (words & -> & _ & _ & H).
  now apply join_keywords_trimmed.
Qed.

Lemma tidy_trimmed (s : jsstring) : tidy s = true -> trimmed s = true.
Proof. unfold tidy. intros H. now apply andb_true_iff in H as [_ H]. Qed.

(** X13: on every path of [generateLLMMetadata] the title, the description
    and the keywords of the record come without whitespace at their ends,
    and the description has single spaces only. *)
Theorem generateLLMMetadata_fields_trimmed
  (JSON_parse : jsstring -> option value) (remote : nat -> request -> reply)
  (url0 content : jsstring) (w : World) :
  exists pm w',
    generateLLMMetadata JSON_parse remote url0 content w = (Returned pm, w') /\
    trimmed (title pm) = true /\
    tidy (description pm) = true /\
    trimmed (keywords pm) = true.
Proof.
  destruct (generate_cases JSON_parse remote url0 content w) as (pm & w' & H & E).
  exists pm, w'. split; [exact H|].
  destruct E as [e w1 _ -> | r w1 e _ _ -> | r w1 v t d k _ _ _ ->];
    cbn [title description keywords fallback_fields];
    repeat split;
    (apply trim_trimmed || apply formatDescription_tidy || apply extractKeywords_trimmed).
Qed.

(** ** The description of the fallback record *)

(** X14: when the three requests fail and the text before the first period
    of the content is a plain sentence, the title is that sentence and the
    description is the template around it in lower case, ending with two
    periods. *)
Theorem generateLLMMetadata_fallback_description
  (JSON_parse : jsstring -> option value) (remote : nat -> request -> reply)
  (url0 content : jsstring) (w : World) (e1 e2 e3 : exn) :
  fails_thrice remote (metadata_request (metadata_prompt url0 content)) (requests w) e1 e2 e3 ->
  fragment (mainTopic_of content) = true ->
  exists pm w',
    generateLLMMetadata JSON_parse remote url0 content w = (Returned pm, w') /\
    title pm = mainTopic_of content /\
    description pm =
      str "Explore essential information about " ++ toLowerCase (mainTopic_of content) ++
      str ". Find practical tips and expert recommendations for optimal outcomes..".
Proof.
  intros Hfail Htopic.
  apply call_fails_thrice in Hfail.
  fold (metadata_call remote url0 content) in Hfail.
  eexists. eexists. split; [eapply generate_outer; eauto|].
  cbn [title description fallback_fields]. split; [now apply trim_fragment|].
  rewrite (@fallback_description_plain outer_opening
             "Explore essential information about" outer_closing
             "Find practical tips and expert recommendations for optimal outcomes");
    trivial.
  unfold fallback_description, outer_opening, outer_closing.
  now rewrite <- !app_assoc.
Qed.

Lemma generateLLMMetadata_fallback_description_witness :
  exists pm w',
    generateLLMMetadata Examples.no_json Examples.failing_remote
      (str "https://example.com/bread") (str "Baking Sourdough Bread. It takes time.")
      Examples.w0 = (Returned pm, w') /\
    title pm = mainTopic_of (str "Baking Sourdough Bread. It takes time.") /\
    description pm =
      str "Explore essential information about " ++
      toLowerCase (mainTopic_of (str "Baking Sourdough Bread. It takes time.")) ++
      str ". Find practical tips and expert recommendations for optimal outcomes..".
Proof.
  apply (@generateLLMMetadata_fallback_description Examples.no_json Examples.failing_remote
           (str "https://example.com/bread") (str "Baking Sourdough Bread. It takes time.")
           Examples.w0 (Rejection (str "first")) (Rejection (str "second"))
           (Rejection (str "third"))).
  - repeat split.
  - reflexivity.
Defined.

(** ** The dashboard *)

Lemma split_on_length (sep : ascii) (s : jsstring) :
  List.length (split_on sep s) =
  S (List.length (filter (fun c => Ascii.eqb c sep) s)).
Proof.
  induction s as [|c s IH]; [reflexivity|]. cbn [split_on filter].
  destruct (Ascii.eqb c sep); cbn [List.length]; [now rewrite IH|].
  destruct (split_on sep s); [discriminate | exact IH].
Qed.

(** X15: the score is at most 3, and it is 3, the badge then having its
    default look, exactly when the title has 50 to 60 characters, the
    description 150 to 160, and the keywords at least two commas. *)
Theorem getSeoScore_points (page : PageMetadata) :
  Dashboard.getSeoScore page <= 3 /\
  (Dashboard.getSeoScore page = 3 <->
   50 <= List.length (title page) <= 60 /\
   150 <= List.length (description page) <= 160 /\
   2 <= commas (keywords page)) /\
  (Dashboard.badge_variant page = str "default" <-> Dashboard.getSeoScore page = 3).
Proof.
  assert (Dashboard.getSeoScore page <= 3 /\
          (Dashboard.getSeoScore page = 3 <->
           50 <= List.length (title page) <= 60 /\
           150 <= List.length (description page) <= 160 /\
           2 <= commas (keywords page))) as [Hle Hthree].
  { unfold Dashboard.getSeoScore, commas. rewrite split_on_length. cbv zeta.
    destruct (50 <=? List.length (title page)) eqn:T1;
      destruct (List.length (title page) <=? 60) eqn:T2;
      destruct (150 <=? List.length (description page)) eqn:D1;
      destruct (List.length (description page) <=? 160) eqn:D2;
      destruct (3 <=? S (List.length (filter (fun c => Ascii.eqb c ",") (keywords page)))) eqn:K;
      cbn [andb];
      repeat match goal with
             | H : (_ <=? _) = true |- _ => apply Nat.leb_le in H
             | H : (_ <=? _) = false |- _ => apply Nat.leb_gt in H
             end;
      (split; [lia | split; [intros; try discriminate; lia | intros; try reflexivity; exfalso; lia]]). }
  split; [exact Hle|]. split; [exact Hthree|].
  unfold Dashboard.badge_variant.
  destruct (Dashboard.getSeoScore page =? 3) eqn:E.
  - apply Nat.eqb_eq in E. now split.
  - apply Nat.eqb_neq in E. split; [discriminate | contradiction].
Qed.

Section DashboardFacts.

Variable JSON_parse : jsstring -> option value.
Variable remote : nat -> request -> reply.

(** The handler from its guard on: the record is added or turned down. *)
Lemma generateMetadata_run (render : Dashboard.State) (b : Dashboard.Browser)
  (pm : PageMetadata) (w' : World) :
  truthy_str (Dashboard.url render) = true ->
  truthy_str (Dashboard.content render) = true ->
  generateLLMMetadata JSON_parse remote (Dashboard.url render) (Dashboard.content render)
    (Dashboard.world b) = (Returned pm, w') ->
  Dashboard.generateMetadata JSON_parse remote render b =
  (Returned tt,
   if complete pm then added (Dashboard.pages render) pm w' b else refused w' b).
Proof.
  intros Hu Hc H. unfold Dashboard.generateMetadata. rewrite Hu, Hc. cbn [negb orb].
  unfold Dashboard.ui_bind, Dashboard.setIsLoading, Dashboard.update,
    Dashboard.try_catch_finally, Dashboard.await.
  cbn [Dashboard.world Dashboard.state Dashboard.toasts]. rewrite H.
  unfold complete.
  destruct (truthy_str (title pm)), (truthy_str (description pm)),
    (truthy_str (keywords pm)); reflexivity.
Qed.

Lemma handleAnalyzeContent_run (render : Dashboard.State) (b : Dashboard.Browser)
  (suggestions : list jsstring) (w' : World) :
  truthy_str (Dashboard.content render) = true ->
  analyzeContent remote (Dashboard.content render) (Dashboard.world b)
    = (Returned suggestions, w') ->
  Dashboard.handleAnalyzeContent remote render b = (Returned tt, analyzed suggestions w' b).
Proof.
  intros Hc H. unfold Dashboard.handleAnalyzeContent. rewrite Hc. cbn [negb].
  unfold Dashboard.ui_bind, Dashboard.setIsLoading, Dashboard.update,
    Dashboard.try_catch_finally, Dashboard.await.
  cbn [Dashboard.world Dashboard.state Dashboard.toasts]. rewrite H. reflexivity.
Qed.

Lemma generate_enabled (s : Dashboard.State) :
  Dashboard.generate_disabled s = false ->
  Dashboard.isLoading s = false /\ truthy_str (Dashboard.url s) = true /\
  truthy_str (Dashboard.content s) = true.
Proof.
  unfold Dashboard.generate_disabled.
  destruct (Dashboard.isLoading s), (truthy_str (Dashboard.url s)),
    (truthy_str (Dashboard.content s)); cbn; intros H; try discriminate; auto.
Qed.

Lemma analyze_enabled (s : Dashboard.State) :
  Dashboard.analyze_disabled s = false ->
  Dashboard.isLoading s = false /\ truthy_str (Dashboard.content s) = true.
Proof.
  unfold Dashboard.analyze_disabled.
  destruct (Dashboard.isLoading s), (truthy_str (Dashboard.content s));
    cbn; intros H; try discriminate; auto.
Qed.

Lemma generate_returns (url0 content : jsstring) (w : World) :
  exists pm w',
    generateLLMMetadata JSON_parse remote url0 content w = (Returned pm, w') /\
    url pm = url0.
Proof.
  destruct (generate_cases JSON_parse remote url0 content w) as (pm & w' & H & E).
  exists pm, w'. split; [exact H | now apply ending_url in E].
Qed.

Lemma analyze_returns (content : jsstring) (w : World) :
  exists suggestions w', analyzeContent remote content w = (Returned suggestions, w').
Proof.
  destruct (call_cases remote (analysis_request (analysis_prompt content)) w)
    as [(k & text & H) | (e1 & e2 & e3 & H)].
  - eexists. eexists. apply analyze_answered. exact H.
  - eexists. eexists. apply analyze_failed with e1 e2. exact H.
Qed.

Lemma refused_same (b : Dashboard.Browser) (w' : World) :
  Dashboard.isLoading (Dashboard.state b) = false ->
  Dashboard.state (refused w' b) = Dashboard.state b.
Proof. destruct b as [w [p u c l s] t]. cbn. now intros ->. Qed.

(** Every action, one case each. *)
Lemma handle_cases (a : Dashboard.action) (b : Dashboard.Browser) :
  exists b', Dashboard.handle JSON_parse remote a b = (Returned tt, b') /\
    ((exists value, b' = snd (Dashboard.setUrl value b)) \/
     (exists value, b' = snd (Dashboard.setContent value b)) \/
     b' = b \/
     (Dashboard.isLoading (Dashboard.state b) = false /\
      ((exists pm w', complete pm = true /\ url pm = Dashboard.url (Dashboard.state b) /\
          truthy_str (Dashboard.url (Dashboard.state b)) = true /\
          b' = added (Dashboard.pages (Dashboard.state b)) pm w' b) \/
       (exists w', b' = refused w' b) \/
       (exists suggestions w', b' = analyzed suggestions w' b)))).
Proof.
  destruct a as [value | value | |].
  - eexists. split; [reflexivity|]. left. now exists value.
  - eexists. split; [reflexivity|]. right. left. now exists value.
  - destruct (Dashboard.generate_disabled (Dashboard.state b)) eqn:Hen.
    + exists b. split; [cbn [Dashboard.handle]; now rewrite Hen | auto].
    + destruct (generate_enabled _ Hen) as (Hl & Hu & Hc).
      destruct (generate_returns (Dashboard.url (Dashboard.state b))
                  (Dashboard.content (Dashboard.state b)) (Dashboard.world b))
        as (pm & w' & H & Hurl).
      eexists. split.
      { cbn [Dashboard.handle]. rewrite Hen.
        exact (@generateMetadata_run (Dashboard.state b) b pm w' Hu Hc H). }
      do 3 right. split; [exact Hl|].
      destruct (complete pm) eqn:C; [left | right; left]; eauto 7.
  - destruct (Dashboard.analyze_disabled (Dashboard.state b)) eqn:Hen.
    + exists b. split; [cbn [Dashboard.handle]; now rewrite Hen | auto].
    + destruct (analyze_enabled _ Hen) as (Hl & Hc).
      destruct (analyze_returns (Dashboard.content (Dashboard.state b)) (Dashboard.world b))
        as (suggestions & w' & H).
      eexists. split.
      { cbn [Dashboard.handle]. rewrite Hen.
        exact (@handleAnalyzeContent_run (Dashboard.state b) b suggestions w' Hc H). }
      do 3 right. split; [exact Hl|].
      right. right. eauto.
Qed.

End DashboardFacts.

(** X16: a click on the enabled first button never fails; the record of
    [generateLLMMetadata] is appended to the pages, the form emptied and the
    success toast shown when title, description and keywords are not empty;
    otherwise pages and form stay as they are and the error toast is shown. *)
Theorem generateMetadata_click
  (JSON_parse : jsstring -> option value) (remote : nat -> request -> reply)
  (b : Dashboard.Browser) :
  Dashboard.generate_disabled (Dashboard.state b) = false ->
  exists pm w',
    generateLLMMetadata JSON_parse remote (Dashboard.url (Dashboard.state b))
      (Dashboard.content (Dashboard.state b)) (Dashboard.world b) = (Returned pm, w') /\
    Dashboard.handle JSON_parse remote Dashboard.ClickGenerate b =
    (Returned tt,
     if complete pm then added (Dashboard.pages (Dashboard.state b)) pm w' b
     else refused w' b) /\
    (complete pm = false -> Dashboard.state (refused w' b) = Dashboard.state b).
Proof.
  intros Hen. destruct (generate_enabled _ Hen) as (Hl & Hu & Hc).
  destruct (generate_returns JSON_parse remote (Dashboard.url (Dashboard.state b))
              (Dashboard.content (Dashboard.state b)) (Dashboard.world b))
    as (pm & w' & H & _).
  exists pm, w'. repeat split; trivial.
  - cbn [Dashboard.handle]. rewrite Hen. now apply generateMetadata_run.
  - intros _. now apply refused_same.
Qed.

Lemma generateMetadata_click_witness :
  exists pm w',
    generateLLMMetadata Examples.no_json Examples.failing_remote
      (Dashboard.url (Dashboard.state
         (filled (str "https://example.com/bread") (str "Baking Sourdough Bread. It takes time.")
            Examples.w0)))
      (Dashboard.content (Dashboard.state
         (filled (str "https://example.com/bread") (str "Baking Sourdough Bread. It takes time.")
            Examples.w0)))
      (Dashboard.world
         (filled (str "https://example.com/bread") (str "Baking Sourdough Bread. It takes time.")
            Examples.w0)) = (Returned pm, w') /\
    Dashboard.handle Examples.no_json Examples.failing_remote Dashboard.ClickGenerate
      (filled (str "https://example.com/bread") (str "Baking Sourdough Bread. It takes time.")
         Examples.w0) =
    (Returned tt,
     if complete pm
     then added
            (Dashboard.pages (Dashboard.state
               (filled (str "https://example.com/bread")
                  (str "Baking Sourdough Bread. It takes time.") Examples.w0)))
            pm w'
            (filled (str "https://example.com/bread")
               (str "Baking Sourdough Bread. It takes time.") Examples.w0)
     else refused w'
            (filled (str "https://example.com/bread")
               (str "Baking Sourdough Bread. It takes time.") Examples.w0)) /\
    (complete pm = false ->
     Dashboard.state
       (refused w'
          (filled (str "https://example.com/bread")
             (str "Baking Sourdough Bread. It takes time.") Examples.w0)) =
     Dashboard.state
       (filled (str "https://example.com/bread")
          (str "Baking Sourdough Bread. It takes time.") Examples.w0)).
Proof.
  apply (@generateMetadata_click Examples.no_json Examples.failing_remote
           (filled (str "https://example.com/bread")
              (str "Baking Sourdough Bread. It takes time.") Examples.w0)).
  reflexivity.
Defined.

(** X17: a click on the enabled second button never fails and never shows the
    error toast: the suggestions of [analyzeContent] are shown with the
    success toast. *)
Theorem handleAnalyzeContent_click
  (JSON_parse : jsstring -> option value) (remote : nat -> request -> reply)
  (b : Dashboard.Browser) :
  Dashboard.analyze_disabled (Dashboard.state b) = false ->
  exists suggestions w',
    analyzeContent remote (Dashboard.content (Dashboard.state b)) (Dashboard.world b)
      = (Returned suggestions, w') /\
    Dashboard.handle JSON_parse remote Dashboard.ClickAnalyze b =
    (Returned tt, analyzed suggestions w' b).
Proof.
  intros Hen. destruct (analyze_enabled _ Hen) as (_ & Hc).
  destruct (analyze_returns remote (Dashboard.content (Dashboard.state b)) (Dashboard.world b))
    as (suggestions & w' & H).
  exists suggestions, w'. split; trivial.
  cbn [Dashboard.handle]. rewrite Hen. now apply handleAnalyzeContent_run.
Qed.

Lemma handleAnalyzeContent_click_witness :
  exists suggestions w',
    analyzeContent (Examples.answering (str "Add headings"))
      (Dashboard.content (Dashboard.state (filled [] (str "Some content") Examples.w0)))
      (Dashboard.world (filled [] (str "Some content") Examples.w0))
      = (Returned suggestions, w') /\
    Dashboard.handle Examples.no_json (Examples.answering (str "Add headings"))
      Dashboard.ClickAnalyze (filled [] (str "Some content") Examples.w0) =
    (Returned tt, analyzed suggestions w' (filled [] (str "Some content") Examples.w0)).
Proof.
  apply (@handleAnalyzeContent_click Examples.no_json (Examples.answering (str "Add headings"))
           (filled [] (str "Some content") Examples.w0)).
  reflexivity.
Defined.

(** X18: with the model down, the click takes three requests and three
    seconds of waiting, and the fallback record is added exactly when the
    first sentence of the content is not blank and the content has a
    keyword; otherwise the error toast is shown. *)
Theorem generateMetadata_model_down
  (JSON_parse : jsstring -> option value) (remote : nat -> request -> reply)
  (b : Dashboard.Browser) (e1 e2 e3 : exn) :
  Dashboard.generate_disabled (Dashboard.state b) = false ->
  fails_thrice remote
    (metadata_request
       (metadata_prompt (Dashboard.url (Dashboard.state b))
          (Dashboard.content (Dashboard.state b))))
    (requests (Dashboard.world b)) e1 e2 e3 ->
  exists w',
    requests w' = requests (Dashboard.world b) + 3 /\
    clock w' = (clock (Dashboard.world b) + 3000)%Z /\
    Dashboard.handle JSON_parse remote Dashboard.ClickGenerate b =
    (Returned tt,
     if (truthy_str (trim (mainTopic_of (Dashboard.content (Dashboard.state b))))
         && truthy_str (extractKeywords (Dashboard.content (Dashboard.state b))))%bool
     then added (Dashboard.pages (Dashboard.state b))
            (fallback_fields (clock w') (Dashboard.url (Dashboard.state b))
               (Dashboard.content (Dashboard.state b)) outer_opening outer_closing) w' b
     else refused w' b).
Proof.
  intros Hen Hfail.
  set (url0 := Dashboard.url (Dashboard.state b)) in *.
  set (content := Dashboard.content (Dashboard.state b)) in *.
  set (req := metadata_request (metadata_prompt url0 content)) in *.
  destruct (generate_enabled _ Hen) as (_ & Hu & Hc).
  destruct (after_attempts_cost req 2 (Dashboard.world b)) as [Hr Hk].
  apply call_fails_thrice in Hfail.
  fold (metadata_call remote url0 content) in Hfail.
  apply generate_outer with (JSON_parse := JSON_parse) in Hfail.
  exists (logged "Error generating metadata with LLM:" e3
            (after_attempts req 2 (Dashboard.world b))).
  split; [exact Hr|]. split; [exact Hk|].
  cbn [Dashboard.handle]. rewrite Hen.
  rewrite (@generateMetadata_run JSON_parse remote (Dashboard.state b) b _ _ Hu Hc Hfail).
  pose proof (proj2 (fallback_description_nonempty
                       (clock (after_attempts req 2 (Dashboard.world b))) url0 content)) as Hd.
  apply truthy_str_nonempty in Hd.
  unfold complete. rewrite Hd, andb_true_r. reflexivity.
Qed.

Lemma generateMetadata_model_down_witness :
  exists w',
    requests w' = requests (Dashboard.world (filled (str "/cat") (str "The cat sat.") Examples.w0)) + 3 /\
    clock w' = (clock (Dashboard.world (filled (str "/cat") (str "The cat sat.") Examples.w0)) + 3000)%Z /\
    Dashboard.handle Examples.no_json Examples.failing_remote Dashboard.ClickGenerate
      (filled (str "/cat") (str "The cat sat.") Examples.w0) =
    (Returned tt,
     if (truthy_str
           (trim (mainTopic_of
                    (Dashboard.content (Dashboard.state
                       (filled (str "/cat") (str "The cat sat.") Examples.w0)))))
         && truthy_str
              (extractKeywords
                 (Dashboard.content (Dashboard.state
                    (filled (str "/cat") (str "The cat sat.") Examples.w0)))))%bool
     then added
            (Dashboard.pages (Dashboard.state
               (filled (str "/cat") (str "The cat sat.") Examples.w0)))
            (fallback_fields (clock w')
               (Dashboard.url (Dashboard.state
                  (filled (str "/cat") (str "The cat sat.") Examples.w0)))
               (Dashboard.content (Dashboard.state
                  (filled (str "/cat") (str "The cat sat.") Examples.w0)))
               outer_opening outer_closing)
            w' (filled (str "/cat") (str "The cat sat.") Examples.w0)
     else refused w' (filled (str "/cat") (str "The cat sat.") Examples.w0)).
Proof.
  apply (@generateMetadata_model_down Examples.no_json Examples.failing_remote
           (filled (str "/cat") (str "The cat sat.") Examples.w0)
           (Rejection (str "first")) (Rejection (str "second")) (Rejection (str "third"))).
  - reflexivity.
  - repeat split.
Defined.

Section Reachable.

Variable JSON_parse : jsstring -> option value.
Variable remote : nat -> request -> reply.

(** What holds of the pages whatever the user does. *)
Lemma run_invariant (actions : list Dashboard.action) :
  forall b,
    Dashboard.isLoading (Dashboard.state b) = false ->
    Forall (fun page => complete page = true /\ url page <> [])
      (Dashboard.pages (Dashboard.state b)) ->
    Dashboard.isLoading (Dashboard.state (Dashboard.run JSON_parse remote actions b)) = false /\
    Forall (fun page => complete page = true /\ url page <> [])
      (Dashboard.pages (Dashboard.state (Dashboard.run JSON_parse remote actions b))).
Proof.
  induction actions as [|a actions IH]; intros b Hl Hp; [now split|].
  cbn [Dashboard.run].
  destruct (handle_cases JSON_parse remote a b) as (b' & -> & C). cbn [snd].
  destruct C as [(v & ->) | [(v & ->) | [-> | (_ & [C | [C | C]])]]];
    try (now apply IH).
  - destruct C as (pm & w' & Hc & Hurl & Hu & ->). apply IH; [reflexivity|].
    cbn [added Dashboard.state Dashboard.pages]. apply Forall_app. split; [exact Hp|].
    constructor; [|constructor]. split; [exact Hc|].
    rewrite Hurl. now apply truthy_str_nonempty.
  - destruct C as (w' & ->). now apply IH.
  - destruct C as (suggestions & w' & ->). now apply IH.
Qed.

Lemma run_toasts (actions : list Dashboard.action) :
  forall b, exists new,
    Dashboard.toasts (Dashboard.run JSON_parse remote actions b) = Dashboard.toasts b ++ new /\
    Forall (fun t => In t shown_toasts) new.
Proof.
  induction actions as [|a actions IH]; intros b.
  - exists []. split; [now rewrite app_nil_r | constructor].
  - cbn [Dashboard.run].
    destruct (handle_cases JSON_parse remote a b) as (b' & -> & C). cbn [snd].
    destruct (IH b') as (new & -> & Hnew).
    assert (exists one, Dashboard.toasts b' = Dashboard.toasts b ++ one /\
                        Forall (fun t => In t shown_toasts) one) as (one & -> & Hone).
    { destruct C as [(v & ->) | [(v & ->) | [-> | (_ & [C | [C | C]])]]].
      - exists []. split; [cbn; now rewrite app_nil_r | constructor].
      - exists []. split; [cbn; now rewrite app_nil_r | constructor].
      - exists []. split; [now rewrite app_nil_r | constructor].
      - destruct C as (pm & w' & _ & _ & _ & ->). eexists. split; [reflexivity|].
        constructor; [|constructor]. now left.
      - destruct C as (w' & ->). eexists. split; [reflexivity|].
        constructor; [|constructor]. right. now left.
      - destruct C as (suggestions & w' & ->). eexists. split; [reflexivity|].
        constructor; [|constructor]. right. right. now left. }
    exists (one ++ new). split; [now rewrite app_assoc | now apply Forall_app].
Qed.

End Reachable.

(** X19: every action is handled to its end without an exception; it leaves
    the loading flag as it was and adds at most one page. *)
Theorem handle_returns
  (JSON_parse : jsstring -> option value) (remote : nat -> request -> reply)
  (a : Dashboard.action) (b : Dashboard.Browser) :
  exists b' more,
    Dashboard.handle JSON_parse remote a b = (Returned tt, b') /\
    Dashboard.isLoading (Dashboard.state b') = Dashboard.isLoading (Dashboard.state b) /\
    Dashboard.pages (Dashboard.state b') = Dashboard.pages (Dashboard.state b) ++ more /\
    List.length more <= 1.
Proof.
  destruct (handle_cases JSON_parse remote a b) as (b' & H & C).
  destruct C as [(v & ->) | [(v & ->) | [-> | (Hl & [C | [C | C]])]]].
  - eexists. exists []. split; [exact H|]. cbn. rewrite app_nil_r. auto.
  - eexists. exists []. split; [exact H|]. cbn. rewrite app_nil_r. auto.
  - eexists. exists []. split; [exact H|]. rewrite app_nil_r. auto.
  - destruct C as (pm & w' & _ & _ & _ & ->). eexists. exists [pm].
    split; [exact H|]. cbn. auto.
  - destruct C as (w' & ->). eexists. exists []. split; [exact H|]. cbn.
    rewrite app_nil_r. auto.
  - destruct C as (suggestions & w' & ->). eexists. exists [].
    split; [exact H|]. cbn. rewrite app_nil_r. auto.
Qed.

(** X20: whatever the user does after the page is loaded, no request is
    pending at the end, and every page of the table has a URL, a title, a
    description and keywords: the cell never shows its replacement text. *)
Theorem dashboard_pages_complete
  (JSON_parse : jsstring -> option value) (remote : nat -> request -> reply)
  (w : World) (actions : list Dashboard.action) :
  exists s,
    Dashboard.Page w = (Returned s, w) /\
    let b := Dashboard.run JSON_parse remote actions (mounted s w) in
    Dashboard.isLoading (Dashboard.state b) = false /\
    Forall (fun page =>
              url page <> [] /\ title page <> [] /\ description page <> [] /\
              keywords page <> [] /\
              Dashboard.description_cell page = description page)
      (Dashboard.pages (Dashboard.state b)).
Proof.
  exists (Dashboard.DashboardComponent []). split; [reflexivity|]. cbv zeta.
  destruct (run_invariant JSON_parse remote actions
              (mounted (Dashboard.DashboardComponent []) w) eq_refl (Forall_nil _))
    as [Hl Hp].
  split; [exact Hl|].
  eapply Forall_impl; [|exact Hp]. cbv beta. intros page [Hc Hu].
  unfold complete in Hc. apply andb_true_iff in Hc as [Hc Hk].
  apply andb_true_iff in Hc as [Ht Hd].
  unfold Dashboard.description_cell. rewrite Hd.
  repeat split; trivial; now apply truthy_str_nonempty.
Qed.

(** X21: the toasts of the two guards and of the analyzer's [catch] are never
    shown: every toast is one of the other three. *)
Theorem dashboard_toasts
  (JSON_parse : jsstring -> option value) (remote : nat -> request -> reply)
  (actions : list Dashboard.action) (b : Dashboard.Browser) :
  exists new,
    Dashboard.toasts (Dashboard.run JSON_parse remote actions b) = Dashboard.toasts b ++ new /\
    Forall (fun t => In t shown_toasts) new /\
    ~ In (Dashboard.destructive "Missing information" "Please provide both URL and content.")
        new /\
    ~ In (Dashboard.destructive "Missing content" "Please provide content to analyze.") new /\
    ~ In (Dashboard.destructive "Error analyzing content"
            "An error occurred while analyzing the content. Please try again.") new.
Proof.
  destruct (run_toasts JSON_parse remote actions b) as (new & H & Hnew).
  exists new. split; [exact H|]. split; [exact Hnew|].
  rewrite Forall_forall in Hnew.
  repeat split; intros Hin; apply Hnew in Hin;
    cbn [shown_toasts In] in Hin;
    repeat (destruct Hin as [Hin | Hin]; [discriminate Hin|]); exact Hin.
Qed.
